(** * Data-parallel training notebook (distribute_flax_models.ipynb)

    A shallow embedding of the notebook's authored code (the [MLP] module,
    [init_fn], [train_step] with its nested [loss_fn], the three-way mode
    dispatch and the cell that calls the compiled step) together with a
    value-level model of the JAX / flax / optax primitives those cells call
    (after their documented behaviour in jax 0.4.31 and flax 0.8.6, the
    versions the notebook names).

    Arrays hold exact rationals ([Qc]); a value that is exactly representable
    in float32 (small integers, halves, ...) behaves the same in both.
    Shapes are not carried in types: the array functions are total, and they
    agree with the framework on well-shaped arguments (on ill-shaped ones the
    framework raises, so nothing is returned there). *)

From Stdlib Require Import String List ZArith QArith Qcanon Lia Bool Arith Permutation.
Import ListNotations.

Set Implicit Arguments.
Open Scope nat_scope.

(* ================================================================== *)
(** * Scalars: the element type of traced arrays *)
(* ================================================================== *)

(** JAX traces a Python function with abstract array elements; the same
    function body runs on plain numbers and on (primal, tangent) pairs.
    [Scalar] is that interface. *)
Class Scalar (R : Type) : Type := {
  zero : R;
  one : R;
  add : R -> R -> R;
  sub : R -> R -> R;
  mul : R -> R -> R;
  relu : R -> R;            (* max(x, 0) *)
  divn : R -> nat -> R      (* division by an element count *)
}.

Definition qn (n : nat) : Qc := Q2Qc (inject_Z (Z.of_nat n)).

Definition Qc_relu (v : Qc) : Qc :=
  match (0 ?= v)%Qc with Lt => v | _ => 0%Qc end.

#[export] Instance Qc_Scalar : Scalar Qc := {
  zero := 0%Qc;
  one := 1%Qc;
  add := Qcplus;
  sub := Qcminus;
  mul := Qcmult;
  relu := Qc_relu;
  divn := fun v n => (v / qn n)%Qc
}.

(** Forward-mode pairs: a value and its derivative along one direction. *)
Record Dual : Type := mkDual { primal : Qc; tangent : Qc }.

Definition const (a : Qc) : Dual := mkDual a 0%Qc.

(** relu has derivative 1 where the input is positive and 0 elsewhere
    (jax.nn.relu's jvp rule is [g * where(x > 0, 1, 0)]). *)
Definition Dual_relu (d : Dual) : Dual :=
  match (0 ?= primal d)%Qc with Lt => d | _ => const 0%Qc end.

#[export] Instance Dual_Scalar : Scalar Dual := {
  zero := const 0%Qc;
  one := const 1%Qc;
  add := fun a b => mkDual (primal a + primal b)%Qc (tangent a + tangent b)%Qc;
  sub := fun a b => mkDual (primal a - primal b)%Qc (tangent a - tangent b)%Qc;
  mul := fun a b => mkDual (primal a * primal b)%Qc
                           (primal a * tangent b + tangent a * primal b)%Qc;
  relu := Dual_relu;
  divn := fun a n => mkDual (primal a / qn n)%Qc (tangent a / qn n)%Qc
}.

(** The laws of the interface that the results below rely on. *)
Class ScalarLaws (R : Type) `{Scalar R} : Prop := {
  add_0_l : forall a : R, add zero a = a;
  add_0_r : forall a : R, add a zero = a;
  add_assoc : forall a b c : R, add a (add b c) = add (add a b) c;
  divn_0 : forall n, divn zero n = zero;
  divn_add : forall (a b : R) n, divn (add a b) n = add (divn a n) (divn b n);
  divn_divn : forall (a : R) m n, divn (divn a m) n = divn a (m * n)
}.

Arguments ScalarLaws R {_}.

(* ================================================================== *)
(** * Arrays and parameter trees *)
(* ================================================================== *)

Set Warnings "-notation-for-abbreviation".
Notation vector R := (list R) (only parsing).
Notation matrix R := (list (list R)) (only parsing).   (* rows *)

(** Parameters of one [nn.Dense]: 'kernel' of shape (in, features) and 'bias'
    of shape (features,). *)
Record DenseParams (R : Type) : Type := mkDenseParams {
  kernel : matrix R;
  bias : vector R
}.

(** The variables of the [MLP]: 'layers_0' ... 'layers_{n-1}' and
    'output_layer'. *)
Record MLPParams (R : Type) : Type := mkMLPParams {
  layers : list (DenseParams R);
  output_layer : DenseParams R
}.

Fixpoint map2 {A B C : Type} (f : A -> B -> C) (l : list A) (l' : list B) : list C :=
  match l, l' with
  | a :: t, b :: t' => f a b :: map2 f t t'
  | _, _ => []
  end.

(** [has_shape a (r, c)]: [a] is a 2-D array with [r] rows of [c] entries. *)
Definition has_shape {R : Type} (a : matrix R) (rc : nat * nat) : Prop :=
  length a = fst rc /\ Forall (fun row => length row = snd rc) a.

(* ================================================================== *)
(** * jax.numpy *)
(* ================================================================== *)

Module jnp.
Section Ops.
Context {R : Type} `{Scalar R}.

(** jnp.ones((r, c)) *)
Definition ones (r c : nat) : matrix R := repeat (repeat one c) r.

(** jnp.sum over a flat sequence of entries *)
Definition sum (v : vector R) : R := fold_right add zero v.

(** a - b, elementwise on equal shapes *)
Definition subtract (a b : matrix R) : matrix R := map2 (map2 sub) a b.

(** a ** 2, elementwise *)
Definition square (a : matrix R) : matrix R := map (map (fun v => mul v v)) a.

(** jnp.mean of a 1-D array: the sum divided by the number of entries.
    (An empty array has no mean: the framework answers NaN, the quotient by
    a zero count here is 0.) *)
Definition mean1 (v : vector R) : R := divn (sum v) (length v).

(** jnp.mean over all entries of a 2-D array *)
Definition mean (a : matrix R) : R := mean1 (concat a).

(** [count] consecutive rows of [c] entries read off a flat buffer *)
Fixpoint rows_of {A : Type} (count c : nat) (flat : list A) : list (list A) :=
  match count with
  | O => []
  | S k => firstn c flat :: rows_of k c (skipn c flat)
  end.
End Ops.
End jnp.

(* ================================================================== *)
(** * flax.linen *)
(* ================================================================== *)

Module nn.
Section Ops.
Context {R : Type} `{Scalar R}.

Definition dot (u v : vector R) : R := jnp.sum (map2 mul u v).

Definition column (j : nat) (k : matrix R) : vector R :=
  map (fun row => nth j row zero) k.

(** nn.Dense(features).__call__: [x @ kernel + bias], row by row *)
Definition Dense (features : nat) (p : DenseParams R) (x : matrix R) : matrix R :=
  map (fun row =>
         map (fun j => add (dot row (column j (kernel p))) (nth j (bias p) zero))
             (seq 0 features))
      x.

(** nn.relu, elementwise *)
Definition relu (x : matrix R) : matrix R := map (map relu) x.
End Ops.
End nn.

(* ================================================================== *)
(** * The model class of the notebook *)
(* ================================================================== *)

(** A bound [nn.Dense] submodule: its only attribute is the output width. *)
Record DenseModule : Type := mkDense { features : nat }.

(** class MLP(nn.Module) with its three dataclass attributes *)
Record MLP : Type := mkMLP {
  n_layers : nat;
  hidden_dim : nat;
  output_dim : nat
}.

Definition enumerate {A : Type} (l : list A) : list (nat * A) :=
  combine (seq 0 (length l)) l.

Definition empty_dense {R : Type} : DenseParams R := mkDenseParams [] [].

Module MLP.
(** def setup(self): the hidden layers and the output layer *)
Definition setup (self : MLP) : list DenseModule * DenseModule :=
  (map (fun _ => mkDense (hidden_dim self)) (seq 0 (n_layers self)),
   mkDense (output_dim self)).

(** def __call__(self, x): submodule [i] of [self.layers] reads the entry
    'layers_i' of the variables *)
Definition __call__ {R : Type} `{Scalar R}
    (self : MLP) (variables : MLPParams R) (x : matrix R) : matrix R :=
  let '(self_layers, self_output_layer) := setup self in
  let x :=
    fold_left
      (fun x '(i, layer) =>
         let x := nn.Dense (features layer) (nth i (layers variables) empty_dense) x in
         nn.relu x)
      (enumerate self_layers) x in
  nn.Dense (features self_output_layer) (output_layer variables) x.
End MLP.

(** A traceable forward function: the type of [model.apply]. *)
Definition ApplyFn : Type :=
  forall (R : Type), Scalar R -> MLPParams R -> matrix R -> matrix R.

Definition apply (model : MLP) : ApplyFn :=
  fun R _ variables x => MLP.__call__ model variables x.

(* ================================================================== *)
(** * Parameter trees as values: tree_map'd arithmetic *)
(* ================================================================== *)

Class Pytree (T : Type) : Type := {
  tree_add : T -> T -> T;
  tree_divn : T -> nat -> T
}.

#[export] Instance Pytree_Qc : Pytree Qc := {
  tree_add := Qcplus;
  tree_divn := fun v n => (v / qn n)%Qc
}.

#[export] Instance Pytree_list {T : Type} `{Pytree T} : Pytree (list T) := {
  tree_add := map2 tree_add;
  tree_divn := fun l n => map (fun v => tree_divn v n) l
}.

#[export] Instance Pytree_Dense : Pytree (DenseParams Qc) := {
  tree_add := fun a b =>
    mkDenseParams (tree_add (kernel a) (kernel b)) (tree_add (bias a) (bias b));
  tree_divn := fun a n =>
    mkDenseParams (tree_divn (kernel a) n) (tree_divn (bias a) n)
}.

#[export] Instance Pytree_MLP : Pytree (MLPParams Qc) := {
  tree_add := fun a b =>
    mkMLPParams (tree_add (layers a) (layers b))
                (tree_add (output_layer a) (output_layer b));
  tree_divn := fun a n =>
    mkMLPParams (tree_divn (layers a) n) (tree_divn (output_layer a) n)
}.

(** Sum and mean of the values one named axis holds, one value per device:
    what psum / pmean hand back to every device of the axis. *)
Fixpoint axis_sum {T : Type} `{Pytree T} (x : T) (xs : list T) : T :=
  match xs with
  | [] => x
  | y :: ys => tree_add x (axis_sum y ys)
  end.

Definition axis_mean {T : Type} `{Pytree T} (x : T) (xs : list T) : T :=
  tree_divn (axis_sum x xs) (S (length xs)).

(* ================================================================== *)
(** * jax: differentiation, collectives, jit and pmap *)
(* ================================================================== *)

Definition lift_vector (v : vector Qc) : vector Dual := map const v.
Definition lift_matrix (a : matrix Qc) : matrix Dual := map lift_vector a.
Definition lift_dense (p : DenseParams Qc) : DenseParams Dual :=
  mkDenseParams (lift_matrix (kernel p)) (lift_vector (bias p)).
Definition lift_params (p : MLPParams Qc) : MLPParams Dual :=
  mkMLPParams (map lift_dense (layers p)) (lift_dense (output_layer p)).

(** [v] with tangent 1 on entry [k] and 0 elsewhere *)
Definition seed_vector (k : nat) (v : vector Qc) : vector Dual :=
  map (fun '(i, a) => mkDual a (if i =? k then 1%Qc else 0%Qc)) (enumerate v).

(** [l] with entry [i] replaced by [x] *)
Definition plug {A : Type} (i : nat) (x : A) (l : list A) : list A :=
  firstn i l ++ x :: skipn (S i) l.

(** Partial derivatives of a scalar function of one leaf, one per entry. *)
Definition vector_grad (f : vector Dual -> Dual) (v : vector Qc) : vector Qc :=
  map (fun k => tangent (f (seed_vector k v))) (seq 0 (length v)).

Definition matrix_grad (f : matrix Dual -> Dual) (a : matrix Qc) : matrix Qc :=
  map (fun r => vector_grad (fun row => f (plug r row (lift_matrix a))) (nth r a []))
      (seq 0 (length a)).

Definition dense_grad (f : DenseParams Dual -> Dual) (p : DenseParams Qc)
  : DenseParams Qc :=
  mkDenseParams
    (matrix_grad (fun k => f (mkDenseParams k (lift_vector (bias p)))) (kernel p))
    (vector_grad (fun b => f (mkDenseParams (lift_matrix (kernel p)) b)) (bias p)).

Definition params_grad (f : MLPParams Dual -> Dual) (p : MLPParams Qc)
  : MLPParams Qc :=
  mkMLPParams
    (map (fun i =>
            dense_grad
              (fun d => f (mkMLPParams (plug i d (map lift_dense (layers p)))
                                       (lift_dense (output_layer p))))
              (nth i (layers p) empty_dense))
         (seq 0 (length (layers p))))
    (dense_grad
       (fun d => f (mkMLPParams (map lift_dense (layers p)) d))
       (output_layer p)).

(** A traceable scalar function of (params, x, y). *)
Definition LossFn : Type :=
  forall (R : Type), Scalar R -> MLPParams R -> matrix R -> matrix R -> R.

(** One device's program: it returns, or it takes part in a pmean over a
    named axis and goes on with the mean. *)
Inductive SPMD (G A : Type) : Type :=
| Ret (a : A)
| Pmean (axis_name : string) (g : G) (k : G -> SPMD G A).

Arguments Ret {G A} a.
Arguments Pmean {G A} axis_name g k.

Fixpoint bind {G A B : Type} (c : SPMD G A) (f : A -> SPMD G B) : SPMD G B :=
  match c with
  | Ret a => f a
  | Pmean axis_name g k => Pmean axis_name g (fun m => bind (k m) f)
  end.

Notation "x <- c ;; f" := (bind c (fun x => f))
  (at level 61, c at next level, right associativity).

Inductive exc_class : Type := ValueError | TypeError | NameError.

(** Who executed the raise: a statement of the notebook, or a framework call
    whose exception surfaces unmodified. *)
Inductive origin : Type := Authored | Framework.

Record exn : Type := mkExn {
  exc : exc_class;
  msg : string;
  raised_by : origin
}.

Inductive result (A : Type) : Type :=
| Ok (a : A)
| Raise (e : exn).

Arguments Ok {A} a.
Arguments Raise {A} e.

Module jax.

(** jax.value_and_grad(fun): the value, and the gradient with respect to the
    first argument. *)
Definition value_and_grad (f : LossFn)
    (params : MLPParams Qc) (x y : matrix Qc) : Qc * MLPParams Qc :=
  (f Qc _ params x y,
   params_grad (fun p => f Dual _ p (lift_matrix x) (lift_matrix y)) params).

Module lax.
(** jax.lax.pmean(x, axis_name) *)
Definition pmean {G : Type} (x : G) (axis_name : string) : SPMD G G :=
  Pmean axis_name x (fun m => Ret m).
End lax.

(** Calling a jitted function: no named axis is bound. *)
Definition run_jit {G A : Type} (c : SPMD G A) : result A :=
  match c with
  | Ret a => Ok a
  | Pmean axis_name _ _ =>
      Raise (mkExn NameError ("unbound axis name: " ++ axis_name) Framework)
  end.

Definition as_ret {G A : Type} (c : SPMD G A) : option A :=
  match c with Ret a => Some a | Pmean _ _ _ => None end.

Definition as_pmean {G A : Type} (axis_name : string) (c : SPMD G A)
  : option (G * (G -> SPMD G A)) :=
  match c with
  | Pmean ax g k => if (ax =? axis_name)%string then Some (g, k) else None
  | Ret _ => None
  end.

Fixpoint sequence {A : Type} (l : list (option A)) : option (list A) :=
  match l with
  | [] => Some []
  | None :: _ => None
  | Some a :: t => match sequence t with Some r => Some (a :: r) | None => None end
  end.

(** Calling a pmapped function: the devices of the axis run the same program
    in lockstep; at a pmean each one receives the mean over the axis. *)
Fixpoint run_pmap {G A : Type} `{Pytree G} (axis_name : string)
    (c : SPMD G A) (cs : list (SPMD G A)) : result (list A) :=
  match c with
  | Ret a =>
      match sequence (map as_ret cs) with
      | Some r => Ok (a :: r)
      | None => Raise (mkExn ValueError "devices disagree on the program" Framework)
      end
  | Pmean ax g k =>
      if (ax =? axis_name)%string then
        match sequence (map (as_pmean axis_name) cs) with
        | Some gks =>
            let m := axis_mean g (map fst gks) in
            run_pmap axis_name (k m) (map (fun gk => snd gk m) gks)
        | None => Raise (mkExn ValueError "devices disagree on the program" Framework)
        end
      else Raise (mkExn NameError ("unbound axis name: " ++ ax) Framework)
  end.

End jax.

(* ================================================================== *)
(** * optax and flax.training.train_state *)
(* ================================================================== *)

Module optax.
(** The accumulators of the optimizer: a step count and the running first
    and second moment estimates, each shaped like the parameters
    ([state.opt_state[0]] in the notebook). *)
Record OptState : Type := mkOptState {
  count : nat;
  mu : MLPParams Qc;
  nu : MLPParams Qc
}.

(** An optimizer is a pair of functions; the notebook never looks inside. *)
Record GradientTransformation : Type := mkGradientTransformation {
  init : MLPParams Qc -> OptState;
  update : MLPParams Qc -> OptState -> MLPParams Qc -> MLPParams Qc * OptState
}.

(** optax.apply_updates(params, updates) *)
Definition apply_updates (params updates : MLPParams Qc) : MLPParams Qc :=
  tree_add params updates.
End optax.

Record TrainState : Type := mkTrainState {
  step : nat;
  apply_fn : ApplyFn;
  params : MLPParams Qc;
  tx : optax.GradientTransformation;
  opt_state : optax.OptState
}.

Arguments apply_fn : clear implicits.

Module TrainState.
(** TrainState.create(apply_fn=..., params=..., tx=...) *)
Definition create (apply_fn : ApplyFn) (params : MLPParams Qc)
    (tx : optax.GradientTransformation) : TrainState :=
  mkTrainState 0 apply_fn params tx (optax.init tx params).

(** state.apply_gradients(grads=...): a new state; [self] is a frozen
    dataclass and is only read. *)
Definition apply_gradients (self : TrainState) (grads : MLPParams Qc) : TrainState :=
  let '(updates, new_opt_state) :=
    optax.update (tx self) grads (opt_state self) (params self) in
  let new_params := optax.apply_updates (params self) updates in
  mkTrainState (step self + 1) (apply_fn self) new_params (tx self) new_opt_state.
End TrainState.

(* ================================================================== *)
(** * The training function (cell 6) *)
(* ================================================================== *)

(** The nested [loss_fn] of [train_step]; it closes over [state]. *)
Definition loss_fn (state : TrainState) : LossFn :=
  fun R _ params x y =>
    let y_pred := apply_fn state R _ params x in
    jnp.mean (jnp.square (jnp.subtract y_pred y)).

(** def train_step(state, x, y); [mode] is the notebook global the body
    reads when it is traced. *)
Definition train_step (mode : string) (state : TrainState) (x y : matrix Qc)
  : SPMD (MLPParams Qc) (TrainState * Qc) :=
  let loss_grad_fn := jax.value_and_grad (loss_fn state) in
  let '(loss, grads) := loss_grad_fn (params state) x y in
  grads <- (if (mode =? "pmap")%string
            then jax.lax.pmean grads "device"
            else Ret grads) ;;
  let state := TrainState.apply_gradients state grads in
  Ret (state, loss).

(* ================================================================== *)
(** * Devices, shardings and the values the notebook names hold *)
(* ================================================================== *)

Definition Device : Type := nat.
Definition Key : Type := Z.

(** The machine and the installed libraries: what the notebook receives
    from outside.  There is always at least one device. *)
Record Platform : Type := mkPlatform {
  default_device : Device;
  other_devices : list Device;
  (** the default kernel initializer of nn.Dense, for the key folded with
      the layer's position: (key, layer, in, out) *)
  lecun_normal : Key -> nat -> nat -> nat -> matrix Qc;
  (** optax.adam(learning_rate=...) *)
  adam : Qc -> optax.GradientTransformation
}.

Definition devices (pf : Platform) : list Device :=
  default_device pf :: other_devices pf.

Definition device_count (pf : Platform) : nat := length (devices pf).

Record Mesh : Type := mkMesh {
  mesh_devices : list Device;
  axis_names : list string
}.

(** PartitionSpec: for each leading dimension, the mesh axis it is split
    over, if any; dimensions beyond the list are replicated. *)
Definition PartitionSpec : Type := list (option string).

Record NamedSharding : Type := mkNamedSharding {
  mesh_of : Mesh;
  spec_of : PartitionSpec
}.

Inductive Sharding : Type :=
| SingleDeviceSharding (d : Device)
| Named (s : NamedSharding).

(** A jax.Array of rank 2 or 3 with its placement. *)
Inductive ArrayVal : Type :=
| Array2 (a : matrix Qc) (s : Sharding)
| Array3 (a : list (matrix Qc)) (s : Sharding).

(** A train state on one placement, or with every leaf stacked along a new
    leading device axis. *)
Inductive StateVal : Type :=
| StateOn (st : TrainState) (s : Sharding)
| StateStacked (sts : list TrainState).

(** A scalar loss, or one loss per device along the mapped axis. *)
Inductive LossVal : Type :=
| ScalarLoss (l : Qc)
| PerDeviceLoss (ls : list Qc).

(** The Python function object [train_step]: its body reads the global
    [mode] when it runs. *)
Definition PyFunction : Type :=
  string -> TrainState -> matrix Qc -> matrix Qc -> SPMD (MLPParams Qc) (TrainState * Qc).

Inductive Compiled : Type :=
| Jitted (f : PyFunction)
| Pmapped (f : PyFunction) (axis_name : string) (in_axes : nat * nat * nat).

(** What the cells do to devices, in order. *)
Inductive event : Type :=
| EvAlloc (shape : list nat)     (* a new device buffer: jnp.ones, PRNGKey *)
| EvModelInit                    (* model.init *)
| EvStateCreate                  (* TrainState.create *)
| EvDevicePut                    (* jax.device_put *)
| EvReplicate                    (* jax_utils.replicate *)
| EvReshape                      (* jnp.reshape *)
| EvJit                          (* jax.jit *)
| EvPmap                         (* jax.pmap *)
| EvRun.                         (* a call of the compiled step *)

(** A cell: the device work it did, and how it ended. *)
Definition NB (A : Type) : Type := list event * result A.

Definition nb_ret {A : Type} (a : A) : NB A := ([], Ok a).
Definition nb_raise {A : Type} (e : exn) : NB A := ([], Raise e).
Definition nb_emit (e : event) : NB unit := ([e], Ok tt).

Definition nb_bind {A B : Type} (c : NB A) (f : A -> NB B) : NB B :=
  match c with
  | (t, Ok a) => let '(t', r) := f a in (t ++ t', r)
  | (t, Raise e) => (t, Raise e)
  end.

Notation "'let*' x ':=' c 'in' f" := (nb_bind c (fun x => f))
  (at level 10, x name, c at level 100, f at level 200).
Notation "c ';;;' f" := (nb_bind c (fun _ => f))
  (at level 62, right associativity).

Definition ncols {A : Type} (a : list (list A)) : nat :=
  match a with [] => 0 | row :: _ => length row end.

Definition surfaced {A : Type} (c : exc_class) (m : string) : NB A :=
  nb_raise (mkExn c m Framework).

(** jnp.ones(shape): a new array on the default device *)
Definition jnp_ones (pf : Platform) (r c : nat) : NB ArrayVal :=
  nb_emit (EvAlloc [r; c]) ;;;
  nb_ret (Array2 (jnp.ones r c) (SingleDeviceSharding (default_device pf))).

(** jax.random.PRNGKey(seed) *)
Definition PRNGKey (seed : Z) : NB Key :=
  nb_emit (EvAlloc [2]) ;;; nb_ret seed.

(** The variables flax creates for the [MLP] on inputs of width [in_width]:
    kernels from the initializer, biases zero. *)
Definition init_variables (pf : Platform) (model : MLP) (k : Key) (in_width : nat)
  : MLPParams Qc :=
  let width i := if i =? 0 then in_width else hidden_dim model in
  mkMLPParams
    (map (fun i =>
            mkDenseParams
              (lecun_normal pf k i (width i) (hidden_dim model))
              (repeat 0%Qc (hidden_dim model)))
         (seq 0 (n_layers model)))
    (mkDenseParams
       (lecun_normal pf k (n_layers model) (width (n_layers model)) (output_dim model))
       (repeat 0%Qc (output_dim model))).

(** model.init(k, x); the input width is the last dimension of [x]. *)
Definition model_init (pf : Platform) (model : MLP) (k : Key) (x : ArrayVal)
  : NB (MLPParams Qc) :=
  match x with
  | Array2 a _ => nb_emit EvModelInit ;;; nb_ret (init_variables pf model k (ncols a))
  | Array3 _ _ => surfaced TypeError "model.init: rank-3 input is outside the model"
  end.

(** The size of the mesh along a named axis (the meshes here have one axis). *)
Definition axis_size (m : Mesh) (axis : string) : option nat :=
  if existsb (String.eqb axis) (axis_names m)
  then Some (length (mesh_devices m)) else None.

(** jax.device_put rejects a dimension that its mesh axis does not divide. *)
Fixpoint partition_ok (m : Mesh) (spec : PartitionSpec) (shape : list nat) : bool :=
  match spec, shape with
  | [], _ => true
  | _ :: _, [] => false
  | None :: spec', _ :: shape' => partition_ok m spec' shape'
  | Some axis :: spec', d :: shape' =>
      match axis_size m axis with
      | Some n => (d mod n =? 0) && partition_ok m spec' shape'
      | None => false
      end
  end.

Definition shape_of (a : ArrayVal) : list nat :=
  match a with
  | Array2 d _ => [length d; ncols d]
  | Array3 d _ => [length d; ncols d; ncols (hd [] d)]
  end.

Definition with_sharding (a : ArrayVal) (s : Sharding) : ArrayVal :=
  match a with
  | Array2 d _ => Array2 d s
  | Array3 d _ => Array3 d s
  end.

(** jax.device_put(array, sharding): the same entries under a new placement *)
Definition device_put (a : ArrayVal) (s : NamedSharding) : NB ArrayVal :=
  if partition_ok (mesh_of s) (spec_of s) (shape_of a)
  then nb_emit EvDevicePut ;;; nb_ret (with_sharding a (Named s))
  else surfaced ValueError
         "device_put: the sharding does not evenly divide the array".

(** jax.device_put(state, sharding) with the empty spec: every leaf is
    copied to all devices of the mesh *)
Definition device_put_state (st : StateVal) (s : NamedSharding) : NB StateVal :=
  match st, spec_of s with
  | StateOn t _, [] => nb_emit EvDevicePut ;;; nb_ret (StateOn t (Named s))
  | _, _ => surfaced ValueError "device_put: unsupported state or spec"
  end.

(** jax_utils.replicate(state): one copy per device along a new axis *)
Definition replicate (pf : Platform) (st : StateVal) : NB StateVal :=
  match st with
  | StateOn t _ => nb_emit EvReplicate ;;; nb_ret (StateStacked (repeat t (device_count pf)))
  | StateStacked _ => surfaced TypeError "replicate: already stacked"
  end.

(** jnp.reshape(a, (d, m, n)) of a rank-2 array: the entries in row-major
    order, regrouped; the sizes must agree. *)
Definition reshape (a : ArrayVal) (shape : nat * nat * nat) : NB ArrayVal :=
  let '(d, m, n) := shape in
  match a with
  | Array2 rows s =>
      let flat := concat rows in
      if length flat =? d * m * n
      then nb_emit EvReshape ;;;
           nb_ret (Array3 (map (jnp.rows_of m n) (jnp.rows_of d (m * n) flat)) s)
      else surfaced TypeError "cannot reshape array"
  | Array3 _ _ => surfaced TypeError "reshape: rank-3 input is outside the model"
  end.

Definition jit (f : PyFunction) : NB Compiled := nb_emit EvJit ;;; nb_ret (Jitted f).

Definition pmap (f : PyFunction) (axis_name : string) (in_axes : nat * nat * nat)
  : NB Compiled := nb_emit EvPmap ;;; nb_ret (Pmapped f axis_name in_axes).

Definition lift_result {A : Type} (r : result A) : NB A := ([], r).

Definition zip3 {A B C : Type} (l : list A) (l' : list B) (l'' : list C)
  : list (A * B * C) := combine (combine l l') l''.

(** Calling the compiled step.  The argument kinds are the ones the
    dispatch prepares for the compiled function at hand; other
    combinations are outside the model and reported as an error. *)
Definition call_compiled (pf : Platform) (mode : string) (c : Compiled)
    (st : StateVal) (x y : ArrayVal) : NB (StateVal * LossVal) :=
  match c, st, x, y with
  | Jitted f, StateOn t s, Array2 xd _, Array2 yd _ =>
      nb_emit EvRun ;;;
      let* out := lift_result (jax.run_jit (f mode t xd yd)) in
      nb_ret (StateOn (fst out) s, ScalarLoss (snd out))
  | Pmapped f axis_name (0, 0, 0), StateStacked (t0 :: ts),
    Array3 (x0 :: xs) _, Array3 (y0 :: ys) _ =>
      if (length ts =? length xs) && (length xs =? length ys)
         && (S (length ts) <=? device_count pf)
      then
        nb_emit EvRun ;;;
        let* outs :=
          lift_result
            (jax.run_pmap axis_name (f mode t0 x0 y0)
               (map (fun '(t, xd, yd) => f mode t xd yd) (zip3 ts xs ys))) in
        nb_ret (StateStacked (map fst outs), PerDeviceLoss (map snd outs))
      else surfaced ValueError "pmap: mapped axis sizes disagree or exceed the device count"
  | _, _, _, _ => surfaced TypeError "call: argument kinds outside the model"
  end.

(* ================================================================== *)
(** * The notebook's cells *)
(* ================================================================== *)

(** The constants at the top of cell 5; its comments invite editing them. *)
Record Hyper : Type := mkHyper {
  h_mode : string;
  h_batchsize : nat;
  h_input_dim : nat;
  h_hidden_dim : nat;
  h_n_layers : nat
}.



(** The notebook's global names ([hidden_dim] and [n_layers] are read once,
    to build [model]). *)
Record Globals : Type := mkGlobals {
  mode : string;
  optimizer : optax.GradientTransformation;
  key : Key;
  batchsize : nat;
  input_dim : nat;
  batch_data : ArrayVal;
  label_data : ArrayVal;
  model : MLP;
  initialized_state : StateVal;
  mesh : option Mesh;
  data_sharding : option NamedSharding;
  train_step_compiled : option Compiled;
  state : option StateVal;
  loss : option LossVal
}.

(** The namespace after the assignments of a dispatch branch. *)
Definition after_dispatch (g : Globals) (batch_data label_data : ArrayVal)
    (initialized_state : StateVal) (mesh : option Mesh)
    (data_sharding : option NamedSharding) (train_step_compiled : Compiled)
  : Globals :=
  mkGlobals (mode g) (optimizer g) (key g) (batchsize g) (input_dim g)
            batch_data label_data (model g) initialized_state
            mesh data_sharding (Some train_step_compiled) (state g) (loss g).

(** The namespace after [state, loss = ...]. *)
Definition after_step (g : Globals) (state : StateVal) (loss : LossVal) : Globals :=
  mkGlobals (mode g) (optimizer g) (key g) (batchsize g) (input_dim g)
            (batch_data g) (label_data g) (model g) (initialized_state g)
            (mesh g) (data_sharding g) (train_step_compiled g)
            (Some state) (Some loss).

(** def init_fn(k, x, model, optimizer) *)
Definition init_fn (pf : Platform) (k : Key) (x : ArrayVal) (model : MLP)
    (optimizer : optax.GradientTransformation) : NB StateVal :=
  let* variables := model_init pf model k x in
  let* state :=
    (nb_emit EvStateCreate ;;;
     nb_ret (TrainState.create (apply model) variables optimizer)) in
  nb_ret (StateOn state (SingleDeviceSharding (default_device pf))).

(** Cell 5: configuration, data, model and initial state. *)
Definition cell5 (pf : Platform) (h : Hyper) : NB Globals :=
  let mode := h_mode h in
  let optimizer := adam pf (Q2Qc (1 # 10000)%Q) in
  let* key := PRNGKey 0 in
  let batchsize := h_batchsize h in
  let input_dim := h_input_dim h in
  let hidden_dim := h_hidden_dim h in
  let n_layers := h_n_layers h in
  let* batch_data := jnp_ones pf batchsize input_dim in
  let* label_data := jnp_ones pf batchsize 10 in
  let model := mkMLP n_layers hidden_dim 10 in
  let* initialized_state := init_fn pf key batch_data model optimizer in
  nb_ret (mkGlobals mode optimizer key batchsize input_dim batch_data label_data
                    model initialized_state None None None None None).

(** def mesh_sharding(pspec), local to the 'jit_multi' branch *)
Definition mesh_sharding (mesh : Mesh) (pspec : PartitionSpec) : NamedSharding :=
  mkNamedSharding mesh pspec.

(** Cell 7: the mode dispatch. *)
Definition cell7 (pf : Platform) (g : Globals) : NB Globals :=
  if (mode g =? "jit_multi")%string then
    let mesh := mkMesh (devices pf) ["data"%string] in
    let data_sharding := mesh_sharding mesh [Some "data"%string] in
    let* batch_data := device_put (batch_data g) data_sharding in
    let* label_data := device_put (label_data g) data_sharding in
    let* initialized_state :=
      device_put_state (initialized_state g) (mesh_sharding mesh []) in
    let* train_step_compiled := jit train_step in
    nb_ret (after_dispatch g batch_data label_data initialized_state
                           (Some mesh) (Some data_sharding) train_step_compiled)
  else if (mode g =? "pmap")%string then
    let* initialized_state := replicate pf (initialized_state g) in
    let* batch_data :=
      reshape (batch_data g)
              (device_count pf, batchsize g / device_count pf, input_dim g) in
    let* label_data :=
      reshape (label_data g)
              (device_count pf, batchsize g / device_count pf, 10) in
    let* train_step_compiled := pmap train_step "device" (0, 0, 0) in
    nb_ret (after_dispatch g batch_data label_data initialized_state
                           (mesh g) (data_sharding g) train_step_compiled)
  else if (mode g =? "jit_single")%string then
    let* train_step_compiled := jit train_step in
    nb_ret (after_dispatch g (batch_data g) (label_data g) (initialized_state g)
                           (mesh g) (data_sharding g) train_step_compiled)
  else
    nb_raise (mkExn ValueError ("Unknown mode: " ++ mode g) Authored).

(** Cell 8: state, loss = train_step_compiled(initialized_state, batch_data,
    label_data) *)
Definition cell8 (pf : Platform) (g : Globals) : NB Globals :=
  match train_step_compiled g with
  | None => surfaced NameError "name 'train_step_compiled' is not defined"
  | Some f =>
      let* out :=
        call_compiled pf (mode g) f (initialized_state g) (batch_data g) (label_data g) in
      nb_ret (after_step g (fst out) (snd out))
  end.


(* ================================================================== *)
(** * A small concrete platform, for evaluating the cells *)
(* ================================================================== *)

Definition params_map (f : Qc -> Qc) (p : MLPParams Qc) : MLPParams Qc :=
  let dense d := mkDenseParams (map (map f) (kernel d)) (map f (bias d)) in
  mkMLPParams (map dense (layers p)) (dense (output_layer p)).

(** Plain gradient descent with the given learning rate, written as a
    GradientTransformation; the accumulators remember the last gradient. *)
Definition descent (learning_rate : Qc) : optax.GradientTransformation :=
  optax.mkGradientTransformation
    (fun p => optax.mkOptState 0 (params_map (fun _ => 0%Qc) p)
                                 (params_map (fun _ => 0%Qc) p))
    (fun g st _ =>
       (params_map (fun v => (- learning_rate * v)%Qc) g,
        optax.mkOptState (optax.count st + 1) g (params_map (fun v => (v * v)%Qc) g))).

(** Kernels whose entry (r, c) of layer [i] is [r + i + 1]: small integers. *)
Definition ramp_kernel (_ : Key) (i r c : nat) : matrix Qc :=
  map (fun a => repeat (qn (a + i + 1)) c) (seq 0 r).

Definition two_devices : Platform := mkPlatform 0 [1] ramp_kernel descent.
Definition three_devices : Platform := mkPlatform 0 [1; 2] ramp_kernel descent.

(* ================================================================== *)
(** * Vocabulary of the statements *)
(* ================================================================== *)



(** The namespace as cell 5 leaves it, with the given state and batch in
    place of the generated ones. *)
Definition workspace (pf : Platform) (m : string) (mdl : MLP) (st : TrainState)
    (x y : matrix Qc) (b n : nat) : Globals :=
  let here := SingleDeviceSharding (default_device pf) in
  mkGlobals m (tx st) 0%Z b n (Array2 x here) (Array2 y here) mdl
            (StateOn st here) None None None None None.

(** Cells 7 and 8 in sequence: prepare for the mode, then take one step. *)
Definition dispatch_and_step (pf : Platform) (g : Globals) : NB Globals :=
  let* g := cell7 pf g in
  cell8 pf g.

(** The mean over a device axis of a list of per-device values. *)
Definition axis_mean_list {T : Type} `{Pytree T} (l : list T) : option T :=
  match l with
  | [] => None
  | x :: xs => Some (axis_mean x xs)
  end.


(** The gradient and the loss of the step's [loss_fn] at the state's own
    parameters, as [train_step] computes them. *)
Definition step_loss (st : TrainState) (x y : matrix Qc) : Qc :=
  fst (jax.value_and_grad (loss_fn st) (params st) x y).

Definition step_grads (st : TrainState) (x y : matrix Qc) : MLPParams Qc :=
  snd (jax.value_and_grad (loss_fn st) (params st) x y).

(** The entries of [(y_pred - y) ** 2], flattened. *)
Definition squared_errors {R : Type} `{Scalar R} (f : ApplyFn)
    (p : MLPParams R) (x y : matrix R) : vector R :=
  concat (jnp.square (jnp.subtract (f R _ p x) y)).

(** A forward function that treats the rows of a batch independently and
    returns rows of width [out]. *)
Definition row_wise (f : ApplyFn) (out : nat) : Prop :=
  forall (R : Type) (S : Scalar R) (p : MLPParams R),
    (forall x1 x2, f R S p (x1 ++ x2) = f R S p x1 ++ f R S p x2) /\
    (forall x, length (f R S p x) = length x) /\
    (forall x, Forall (fun row => length row = out) (f R S p x)).

(** [f] is, in its tangent, the mean of the functions [ctx c0], [ctx c] for
    [c] in [cs]. *)
Definition tangent_is_mean {X C : Type} (f : X -> Dual) (ctx : C -> X -> Dual)
    (c0 : C) (cs : list C) : Prop :=
  forall q, tangent (f q)
            = axis_mean (tangent (ctx c0 q)) (map (fun c => tangent (ctx c q)) cs).

(** One device's share of a batch: [m] rows of inputs and an (m, out)
    block of labels. *)
Definition shard_ok (m out : nat) (x y : matrix Qc) : Prop :=
  length x = m /\ has_shape y (m, out).

(** The loss the namespace holds after the dispatch and one step, if the
    cells ran to the end. *)
Definition loss_after (pf : Platform) (g : Globals) : option LossVal :=
  match dispatch_and_step pf g with
  | (_, Ok g') => loss g'
  | (_, Raise _) => None
  end.

Definition state_after (pf : Platform) (g : Globals) : option StateVal :=
  match dispatch_and_step pf g with
  | (_, Ok g') => state g'
  | (_, Raise _) => None
  end.

(** What one device of a pmapped call holds: its copy of the state and its
    shard of inputs and labels. *)
Definition Shard : Type := (TrainState * matrix Qc * matrix Qc)%type.

(** Cells 5 to 7: everything up to and including the dispatch. *)
Definition prepare (pf : Platform) (h : Hyper) : NB Globals :=
  let* g := cell5 pf h in
  cell7 pf g.




(** [new] is [old] after exactly one [apply_gradients]. *)
Definition one_update (old new : TrainState) : Prop :=
  (exists grads, new = TrainState.apply_gradients old grads) /\
  step new = step old + 1.

Definition state_replaced (old : StateVal) (new : option StateVal) : Prop :=
  match old, new with
  | StateOn st _, Some (StateOn st' _) => one_update st st'
  | StateStacked sts, Some (StateStacked sts') => Forall2 one_update sts sts'
  | _, _ => False
  end.







(** The numbers in a parameter tree, layer by layer: (kernel, bias). *)
Definition params_values (p : MLPParams Qc) : list (list (list Q) * list Q) :=
  map (fun d => (map (map this) (kernel d), map this (bias d)))
      (layers p ++ [output_layer p]).

(** Whether a device program starts with a cross-device mean. *)
Definition uses_pmean {G A : Type} (c : SPMD G A) : bool :=
  match c with Pmean _ _ _ => true | Ret _ => false end.

(** The compiled step wraps the notebook's [train_step]. *)
Definition wraps_train_step (c : Compiled) : Prop :=
  match c with
  | Jitted f => f = train_step
  | Pmapped f axis_name in_axes =>
      f = train_step /\ axis_name = "device"%string /\ in_axes = (0, 0, 0)
  end.

(** A two-row batch whose rows differ, on a one-hidden-layer model with
    small integer weights. *)
Definition ex_model : MLP := mkMLP 1 2 10.

Definition ex_params : MLPParams Qc :=
  mkMLPParams
    [mkDenseParams [[qn 1; qn 0]; [qn 0; qn 1]] [qn 0; qn 0]]
    (mkDenseParams [repeat (qn 1) 10; repeat (qn 0) 10] (repeat (qn 0) 10)).

Definition ex_state : TrainState :=
  TrainState.create (apply ex_model) ex_params (descent (qn 1)).

Definition ex_x : matrix Qc := [[qn 2; qn 0]; [qn 4; qn 0]].
Definition ex_y : matrix Qc := [repeat (qn 1) 10; repeat (qn 1) 10].

Definition ex_workspace (m : string) : Globals :=
  workspace two_devices m ex_model ex_state ex_x ex_y 2 2.

Definition ex_hyper (m : string) : Hyper := mkHyper m 4 2 3 1.

(** The example namespace after the dispatch, and after one step. *)
Definition ex_prepared (m : string) : Globals :=
  match cell7 two_devices (ex_workspace m) with
  | (_, Ok g) => g
  | (_, Raise _) => ex_workspace m
  end.

Definition ex_stepped (m : string) : Globals :=
  match cell8 two_devices (ex_prepared m) with
  | (_, Ok g) => g
  | (_, Raise _) => ex_prepared m
  end.

(* ================================================================== *)
(** * Vocabulary of the further properties *)
(* ================================================================== *)

(** A machine with a single device. *)
Definition one_device : Platform := mkPlatform 0 [] ramp_kernel descent.






(** The residuals [y_pred - y] of the step's forward pass. *)
Definition residuals (st : TrainState) (x y : matrix Qc) : matrix Qc :=
  jnp.subtract (apply_fn st Qc _ (params st) x) y.

(** Every leaf of a parameter tree is zero. *)
Definition zero_matrix (a : matrix Qc) : Prop := Forall (Forall (eq 0%Qc)) a.

Definition zero_dense (d : DenseParams Qc) : Prop :=
  zero_matrix (kernel d) /\ Forall (eq 0%Qc) (bias d).

Definition zero_params (p : MLPParams Qc) : Prop :=
  Forall zero_dense (layers p) /\ zero_dense (output_layer p).

(** The plain values under a traced tree. *)
Definition primal_matrix (a : matrix Dual) : matrix Qc := map (map primal) a.

Definition primal_dense (d : DenseParams Dual) : DenseParams Qc :=
  mkDenseParams (primal_matrix (kernel d)) (map primal (bias d)).

Definition primal_params (p : MLPParams Dual) : MLPParams Qc :=
  mkMLPParams (map primal_dense (layers p)) (primal_dense (output_layer p)).

(* ================================================================== *)
(** * The laws hold for numbers and for (primal, tangent) pairs *)
(* ================================================================== *)

Lemma qn_mul (m n : nat) : qn (m * n) = (qn m * qn n)%Qc.
Proof.
  unfold qn, Qcmult. apply Q2Qc_eq_iff.
  rewrite Nat2Z.inj_mul, inject_Z_mult.
  unfold Q2Qc, this. rewrite !Qred_correct. reflexivity.
Qed.

Lemma Qc_div_div (a : Qc) (m n : nat) : (a / qn m / qn n = a / qn (m * n))%Qc.
Proof.
  rewrite qn_mul. unfold Qcdiv. rewrite Qcinv_mult_distr. ring.
Qed.

Lemma Qc_div_add (a b c : Qc) : ((a + b) / c = a / c + b / c)%Qc.
Proof. unfold Qcdiv. ring. Qed.

Lemma Qc_div_0 (c : Qc) : (0 / c = 0)%Qc.
Proof. unfold Qcdiv. ring. Qed.


#[export] Instance Dual_ScalarLaws : ScalarLaws Dual.
Proof.
  split; simpl; intros; unfold const.
  - destruct a; simpl; f_equal; ring.
  - destruct a; simpl; f_equal; ring.
  - f_equal; ring.
  - simpl. f_equal; apply Qc_div_0.
  - f_equal; apply Qc_div_add.
  - f_equal; apply Qc_div_div.
Qed.

(* ================================================================== *)
(** * Lists, rows and shards *)
(* ================================================================== *)

Lemma map2_app {A B C : Type} (f : A -> B -> C) (l1 l2 : list A) (k1 k2 : list B) :
  length l1 = length k1 ->
  map2 f (l1 ++ l2) (k1 ++ k2) = map2 f l1 k1 ++ map2 f l2 k2.
Proof.
  revert k1. induction l1 as [|a l1 IH]; intros [|b k1] E; simpl in *; try discriminate.
  - reflexivity.
  - f_equal. apply IH. lia.
Qed.

Lemma map2_length {A B C : Type} (f : A -> B -> C) (l : list A) (k : list B) :
  length (map2 f l k) = Nat.min (length l) (length k).
Proof.
  revert k. induction l as [|a l IH]; intros [|b k]; simpl; auto.
Qed.

Lemma map2_map {A B C I : Type} (f : A -> B -> C) (u : I -> A) (v : I -> B) (l : list I) :
  map2 f (map u l) (map v l) = map (fun i => f (u i) (v i)) l.
Proof. induction l; simpl; congruence. Qed.

Lemma map2_concat {A B C : Type} (f : A -> B -> C) (ls : list (list A)) (ks : list (list B)) :
  Forall2 (fun l k => length l = length k) ls ks ->
  map2 f (concat ls) (concat ks) = concat (map2 (map2 f) ls ks).
Proof.
  induction 1; simpl; auto.
  rewrite map2_app by assumption. congruence.
Qed.

Lemma rows_of_length {A : Type} (count c : nat) (flat : list A) :
  length (jnp.rows_of count c flat) = count.
Proof. revert flat. induction count; simpl; intros; auto. Qed.

(** Reading [length rows] rows back off the flattened rows gives the rows. *)
Lemma rows_of_concat {A : Type} (c : nat) (rows : list (list A)) (rest : list A) :
  Forall (fun row => length row = c) rows ->
  jnp.rows_of (length rows) c (concat rows ++ rest) = rows.
Proof.
  induction 1 as [|row rows Hrow _ IH]; simpl; auto.
  rewrite <- app_assoc.
  rewrite firstn_app, skipn_app, Hrow, Nat.sub_diag.
  rewrite firstn_all2, skipn_all2 by lia.
  simpl. rewrite app_nil_r. f_equal. apply IH.
Qed.

(** Cutting a list of [d * m] rows into [d] blocks of [m] rows. *)
Lemma blocks_concat {A : Type} (d m : nat) (l : list A) :
  length l = d * m -> concat (jnp.rows_of d m l) = l.
Proof.
  revert l. induction d as [|d IH]; simpl; intros l E.
  - destruct l; simpl in *; auto; discriminate.
  - rewrite IH.
    + apply firstn_skipn.
    + rewrite length_skipn. lia.
Qed.

Lemma blocks_length {A : Type} (d m : nat) (l : list A) :
  length l = d * m -> Forall (fun b => length b = m) (jnp.rows_of d m l).
Proof.
  revert l. induction d as [|d IH]; simpl; intros l E; constructor.
  - rewrite length_firstn. lia.
  - apply IH. rewrite length_skipn. lia.
Qed.

Lemma Forall_firstn_skipn {A : Type} (P : A -> Prop) (n : nat) (l : list A) :
  Forall P l -> Forall P (firstn n l) /\ Forall P (skipn n l).
Proof.
  intros H. rewrite <- (firstn_skipn n l) in H. apply Forall_app in H. exact H.
Qed.

Lemma blocks_Forall {A : Type} (P : A -> Prop) (d m : nat) (l : list A) :
  Forall P l -> Forall (Forall P) (jnp.rows_of d m l).
Proof.
  revert l. induction d as [|d IH]; simpl; intros l H; constructor.
  - apply (Forall_firstn_skipn m H).
  - apply IH. apply (Forall_firstn_skipn m H).
Qed.

Lemma concat_length_rect {A : Type} (c : nat) (rows : list (list A)) :
  Forall (fun row => length row = c) rows -> length (concat rows) = length rows * c.
Proof.
  induction 1; simpl; auto. rewrite length_app. lia.
Qed.

(** The rank-3 regrouping of a (d*m, n) array is its row blocks. *)
Lemma reshape_blocks {A : Type} (d m n : nat) (a : list (list A)) :
  length a = d * m -> Forall (fun row => length row = n) a ->
  map (jnp.rows_of m n) (jnp.rows_of d (m * n) (concat a)) = jnp.rows_of d m a.
Proof.
  revert a. induction d as [|d IH]; simpl; intros a E H; auto.
  rewrite <- (firstn_skipn m a) at 1 2.
  rewrite concat_app.
  destruct (Forall_firstn_skipn m H) as [Hf Hs].
  assert (Lf : length (firstn m a) = m) by (rewrite length_firstn; lia).
  assert (Lc : length (concat (firstn m a)) = m * n).
  { rewrite (concat_length_rect Hf), Lf. reflexivity. }
  rewrite firstn_app, skipn_app, Lc, Nat.sub_diag.
  rewrite (@firstn_all2 _ (m * n) (concat (firstn m a))) by lia.
  rewrite (@skipn_all2 _ (m * n) (concat (firstn m a))) by lia.
  simpl. rewrite app_nil_r. f_equal.
  - rewrite <- Lf at 1. rewrite <- (app_nil_r (concat (firstn m a))).
    apply rows_of_concat; assumption.
  - apply IH; auto. rewrite length_skipn. lia.
Qed.

(* ================================================================== *)
(** * The loss of a batch and the losses of its shards *)
(* ================================================================== *)

Section ForwardRows.
Context {R : Type} {S : Scalar R}.

Lemma Dense_app (n : nat) (p : DenseParams R) (x1 x2 : matrix R) :
  nn.Dense n p (x1 ++ x2) = nn.Dense n p x1 ++ nn.Dense n p x2.
Proof. unfold nn.Dense. apply map_app. Qed.

Lemma Dense_rows (n : nat) (p : DenseParams R) (x : matrix R) :
  Forall (fun row => length row = n) (nn.Dense n p x).
Proof.
  unfold nn.Dense. apply Forall_forall. intros row Hin.
  apply in_map_iff in Hin. destruct Hin as [r [<- _]].
  rewrite length_map, length_seq. reflexivity.
Qed.

Lemma relu_app (x1 x2 : matrix R) : nn.relu (x1 ++ x2) = nn.relu x1 ++ nn.relu x2.
Proof. unfold nn.relu. apply map_app. Qed.

Lemma hidden_app (p : MLPParams R) (ls : list (nat * DenseModule)) (x1 x2 : matrix R) :
  let layer_step :=
    fun (x : matrix R) '(i, layer) =>
      nn.relu (nn.Dense (features layer) (nth i (layers p) empty_dense) x) in
  fold_left layer_step ls (x1 ++ x2)
  = fold_left layer_step ls x1 ++ fold_left layer_step ls x2.
Proof.
  intros layer_step. revert x1 x2.
  induction ls as [|[i layer] ls IH]; intros x1 x2; simpl; auto.
  rewrite Dense_app, relu_app. apply IH.
Qed.

Lemma hidden_length (p : MLPParams R) (ls : list (nat * DenseModule)) (x : matrix R) :
  let layer_step :=
    fun (x : matrix R) '(i, layer) =>
      nn.relu (nn.Dense (features layer) (nth i (layers p) empty_dense) x) in
  length (fold_left layer_step ls x) = length x.
Proof.
  intros layer_step. revert x.
  induction ls as [|[i layer] ls IH]; intros x; simpl; auto.
  rewrite IH. unfold nn.relu, nn.Dense. rewrite !length_map. reflexivity.
Qed.

Lemma call_app (m : MLP) (p : MLPParams R) (x1 x2 : matrix R) :
  MLP.__call__ m p (x1 ++ x2) = MLP.__call__ m p x1 ++ MLP.__call__ m p x2.
Proof.
  unfold MLP.__call__, MLP.setup.
  rewrite hidden_app. apply Dense_app.
Qed.

Lemma call_length (m : MLP) (p : MLPParams R) (x : matrix R) :
  length (MLP.__call__ m p x) = length x.
Proof.
  unfold MLP.__call__, MLP.setup.
  unfold nn.Dense at 1. rewrite length_map. apply hidden_length.
Qed.

Lemma call_rows (m : MLP) (p : MLPParams R) (x : matrix R) :
  Forall (fun row => length row = output_dim m) (MLP.__call__ m p x).
Proof. unfold MLP.__call__, MLP.setup. apply Dense_rows. Qed.

End ForwardRows.

Lemma apply_row_wise (m : MLP) : row_wise (apply m) (output_dim m).
Proof.
  intros R S p. unfold apply. repeat split; intros.
  - apply call_app.
  - apply call_length.
  - apply call_rows.
Qed.

Section LossOfShards.
Context {R : Type} {S : Scalar R} {L : ScalarLaws R}.

Lemma sum_app (u v : vector R) : jnp.sum (u ++ v) = add (jnp.sum u) (jnp.sum v).
Proof.
  induction u as [|a u IH]; simpl.
  - symmetry. apply add_0_l.
  - rewrite IH. apply add_assoc.
Qed.

Lemma sum_concat (ls : list (vector R)) :
  jnp.sum (concat ls) = jnp.sum (map jnp.sum ls).
Proof.
  induction ls as [|l ls IH]; simpl; auto.
  rewrite sum_app, IH. reflexivity.
Qed.

Lemma sum_divn (c : nat) (l : vector R) :
  jnp.sum (map (fun a => divn a c) l) = divn (jnp.sum l) c.
Proof.
  induction l as [|a l IH]; simpl.
  - symmetry. apply divn_0.
  - rewrite IH. symmetry. apply divn_add.
Qed.

(** The mean of equally long blocks is the mean of the block means. *)
Lemma mean1_blocks (c : nat) (blocks : list (vector R)) :
  Forall (fun b => length b = c) blocks ->
  jnp.mean1 (concat blocks) = jnp.mean1 (map jnp.mean1 blocks).
Proof.
  intros H. unfold jnp.mean1 at 1 2.
  rewrite (concat_length_rect H), sum_concat, length_map.
  assert (E : map jnp.mean1 blocks = map (fun a => divn a c) (map jnp.sum blocks)).
  { rewrite map_map. apply map_ext_Forall.
    eapply Forall_impl; [|exact H]. intros b Hb. unfold jnp.mean1. rewrite Hb. reflexivity. }
  rewrite E, sum_divn, divn_divn, (Nat.mul_comm c). reflexivity.
Qed.

Variable st : TrainState.
Variable out : nat.
Hypothesis f_rows : row_wise (apply_fn st) out.
Variable p : MLPParams R.

Lemma forward_nil : apply_fn st R S p [] = [].
Proof.
  destruct (f_rows S p) as [_ [Hl _]]. specialize (Hl []).
  destruct (apply_fn st R S p []); simpl in *; auto; discriminate.
Qed.

Lemma forward_concat (xs : list (matrix R)) :
  apply_fn st R S p (concat xs) = concat (map (apply_fn st R S p) xs).
Proof.
  induction xs as [|x xs IH]; simpl.
  - apply forward_nil.
  - destruct (f_rows S p) as [Ha _]. rewrite Ha, IH. reflexivity.
Qed.

Lemma squared_errors_app (x1 x2 y1 y2 : matrix R) :
  length x1 = length y1 ->
  squared_errors (apply_fn st) p (x1 ++ x2) (y1 ++ y2)
  = squared_errors (apply_fn st) p x1 y1 ++ squared_errors (apply_fn st) p x2 y2.
Proof.
  intros E. unfold squared_errors, jnp.square, jnp.subtract.
  destruct (f_rows S p) as [Ha [Hl _]].
  rewrite Ha, map2_app, map_app, concat_app; auto.
  rewrite Hl. exact E.
Qed.

Lemma squared_errors_concat (xs ys : list (matrix R)) :
  Forall2 (fun x y => length x = length y) xs ys ->
  squared_errors (apply_fn st) p (concat xs) (concat ys)
  = concat (map2 (squared_errors (apply_fn st) p) xs ys).
Proof.
  induction 1 as [|x y xs ys E _ IH]; simpl.
  - unfold squared_errors. rewrite forward_nil. reflexivity.
  - rewrite squared_errors_app by exact E. rewrite IH. reflexivity.
Qed.

Lemma squared_errors_length (m : nat) (x y : matrix R) :
  length x = m -> has_shape y (m, out) ->
  length (squared_errors (apply_fn st) p x y) = m * out.
Proof.
  intros Hx [Hy Hrows]. simpl in Hy, Hrows.
  unfold squared_errors, jnp.square, jnp.subtract.
  destruct (f_rows S p) as [_ [Hl Hw]].
  specialize (Hl x). specialize (Hw x).
  assert (Hr : Forall (fun row => length row = out)
                      (map2 (map2 sub) (apply_fn st R S p x) y)).
  { revert Hw Hrows. generalize (apply_fn st R S p x) as a. clear.
    intros a Ha. revert y. induction Ha as [|r a Hr _ IH]; intros [|s y] Hy; simpl; auto.
    inversion Hy; subst. constructor; auto.
    rewrite map2_length. lia. }
  assert (Hm : Forall (fun row => length row = out)
                 (map (map (fun v => mul v v))
                      (map2 (map2 sub) (apply_fn st R S p x) y))).
  { apply Forall_map. eapply Forall_impl; [|exact Hr].
    intros r Hlen. simpl. rewrite length_map. exact Hlen. }
  rewrite (concat_length_rect Hm), length_map, map2_length. lia.
Qed.

(** The loss of the whole batch is the mean of the losses of its equally
    sized shards. *)
Lemma loss_of_shards (m : nat) (xs ys : list (matrix R)) :
  Forall2 (fun x y => length x = m /\ has_shape y (m, out)) xs ys ->
  loss_fn st S p (concat xs) (concat ys) = jnp.mean1 (map2 (loss_fn st S p) xs ys).
Proof.
  intros H.
  change (jnp.mean1 (squared_errors (apply_fn st) p (concat xs) (concat ys))
          = jnp.mean1 (map2 (loss_fn st S p) xs ys)).
  rewrite squared_errors_concat.
  - rewrite (@mean1_blocks (m * out)).
    + f_equal. clear. revert ys. induction xs as [|x xs IH]; intros [|y ys]; simpl; auto.
      rewrite IH. reflexivity.
    + clear -H f_rows. induction H as [|x y xs ys [Hx Hy] _ IH]; simpl; constructor; auto.
      apply squared_errors_length; assumption.
  - eapply Forall2_impl; [|exact H]. intros x y [Hx [Hy _]]. simpl in Hy. congruence.
Qed.

End LossOfShards.

(* ================================================================== *)
(** * Means over the device axis commute with differentiation *)
(* ================================================================== *)

Section AxisMeanOfTables.
Context {T : Type} {P : Pytree T} {I C : Type}.

Lemma axis_sum_table (l : list I) (G : C -> I -> T) (c0 : C) (cs : list C) :
  axis_sum (map (G c0) l) (map (fun c => map (G c) l) cs)
  = map (fun i => axis_sum (G c0 i) (map (fun c => G c i) cs)) l.
Proof.
  revert c0. induction cs as [|c cs IH]; intros c0; simpl.
  - reflexivity.
  - rewrite IH. apply map2_map.
Qed.

(** Devices that each hold a table over the same indices: the mean of the
    tables is the table of the means. *)
Lemma axis_mean_table (l : list I) (G : C -> I -> T) (c0 : C) (cs : list C) :
  axis_mean (map (G c0) l) (map (fun c => map (G c) l) cs)
  = map (fun i => axis_mean (G c0 i) (map (fun c => G c i) cs)) l.
Proof.
  unfold axis_mean. rewrite axis_sum_table. simpl.
  rewrite map_map, length_map. apply map_ext. intros i.
  rewrite length_map. reflexivity.
Qed.
End AxisMeanOfTables.

Lemma axis_mean_dense {C : Type} (K : C -> matrix Qc) (B : C -> vector Qc)
    (c0 : C) (cs : list C) :
  axis_mean (mkDenseParams (K c0) (B c0)) (map (fun c => mkDenseParams (K c) (B c)) cs)
  = mkDenseParams (axis_mean (K c0) (map K cs)) (axis_mean (B c0) (map B cs)).
Proof.
  unfold axis_mean. rewrite !length_map.
  assert (E : axis_sum (mkDenseParams (K c0) (B c0))
                       (map (fun c => mkDenseParams (K c) (B c)) cs)
              = mkDenseParams (axis_sum (K c0) (map K cs)) (axis_sum (B c0) (map B cs))).
  { revert c0. induction cs as [|c cs IH]; intros c0; simpl; auto.
    rewrite IH. reflexivity. }
  rewrite E. reflexivity.
Qed.

Lemma axis_mean_params {C : Type} (Ls : C -> list (DenseParams Qc))
    (O : C -> DenseParams Qc) (c0 : C) (cs : list C) :
  axis_mean (mkMLPParams (Ls c0) (O c0)) (map (fun c => mkMLPParams (Ls c) (O c)) cs)
  = mkMLPParams (axis_mean (Ls c0) (map Ls cs)) (axis_mean (O c0) (map O cs)).
Proof.
  unfold axis_mean. rewrite !length_map.
  assert (E : axis_sum (mkMLPParams (Ls c0) (O c0))
                       (map (fun c => mkMLPParams (Ls c) (O c)) cs)
              = mkMLPParams (axis_sum (Ls c0) (map Ls cs)) (axis_sum (O c0) (map O cs))).
  { revert c0. induction cs as [|c cs IH]; intros c0; simpl; auto.
    rewrite IH. reflexivity. }
  rewrite E. reflexivity.
Qed.

Section GradOfMean.
Context {C : Type}.
Variable c0 : C.
Variable cs : list C.

Lemma vector_grad_mean f (ctx : C -> vector Dual -> Dual) (v : vector Qc) :
  tangent_is_mean f ctx c0 cs ->
  vector_grad f v
  = axis_mean (vector_grad (ctx c0) v) (map (fun c => vector_grad (ctx c) v) cs).
Proof.
  intros H. unfold vector_grad.
  rewrite (axis_mean_table (seq 0 (length v))
             (fun c k => tangent (ctx c (seed_vector k v)))).
  apply map_ext. intros k. apply H.
Qed.

Lemma matrix_grad_mean f (ctx : C -> matrix Dual -> Dual) (a : matrix Qc) :
  tangent_is_mean f ctx c0 cs ->
  matrix_grad f a
  = axis_mean (matrix_grad (ctx c0) a) (map (fun c => matrix_grad (ctx c) a) cs).
Proof.
  intros H. unfold matrix_grad.
  rewrite (axis_mean_table (seq 0 (length a))
             (fun c r => vector_grad (fun row => ctx c (plug r row (lift_matrix a)))
                                     (nth r a []))).
  apply map_ext. intros r.
  apply vector_grad_mean with (ctx := fun c row => ctx c (plug r row (lift_matrix a))).
  intros row. apply H.
Qed.

Lemma dense_grad_mean f (ctx : C -> DenseParams Dual -> Dual) (p : DenseParams Qc) :
  tangent_is_mean f ctx c0 cs ->
  dense_grad f p
  = axis_mean (dense_grad (ctx c0) p) (map (fun c => dense_grad (ctx c) p) cs).
Proof.
  intros H. unfold dense_grad.
  rewrite (axis_mean_dense
             (fun c => matrix_grad (fun k => ctx c (mkDenseParams k (lift_vector (bias p))))
                                   (kernel p))
             (fun c => vector_grad (fun b => ctx c (mkDenseParams (lift_matrix (kernel p)) b))
                                   (bias p))).
  f_equal.
  - apply matrix_grad_mean
      with (ctx := fun c k => ctx c (mkDenseParams k (lift_vector (bias p)))).
    intros k. apply H.
  - apply vector_grad_mean
      with (ctx := fun c b => ctx c (mkDenseParams (lift_matrix (kernel p)) b)).
    intros b. apply H.
Qed.

Lemma params_grad_mean f (ctx : C -> MLPParams Dual -> Dual) (p : MLPParams Qc) :
  tangent_is_mean f ctx c0 cs ->
  params_grad f p
  = axis_mean (params_grad (ctx c0) p) (map (fun c => params_grad (ctx c) p) cs).
Proof.
  intros H. unfold params_grad.
  rewrite (axis_mean_params
             (fun c =>
                map (fun i =>
                       dense_grad
                         (fun d => ctx c (mkMLPParams (plug i d (map lift_dense (layers p)))
                                                      (lift_dense (output_layer p))))
                         (nth i (layers p) empty_dense))
                    (seq 0 (length (layers p))))
             (fun c =>
                dense_grad (fun d => ctx c (mkMLPParams (map lift_dense (layers p)) d))
                           (output_layer p))).
  f_equal.
  - rewrite (axis_mean_table (seq 0 (length (layers p)))
               (fun c i =>
                  dense_grad
                    (fun d => ctx c (mkMLPParams (plug i d (map lift_dense (layers p)))
                                                 (lift_dense (output_layer p))))
                    (nth i (layers p) empty_dense))).
    apply map_ext. intros i.
    apply dense_grad_mean
      with (ctx := fun c d => ctx c (mkMLPParams (plug i d (map lift_dense (layers p)))
                                                 (lift_dense (output_layer p)))).
    intros d. apply H.
  - apply dense_grad_mean
      with (ctx := fun c d => ctx c (mkMLPParams (map lift_dense (layers p)) d)).
    intros d. apply H.
Qed.
End GradOfMean.

Lemma tangent_sum (l : vector Dual) : tangent (jnp.sum l) = jnp.sum (map tangent l).
Proof. induction l as [|d l IH]; simpl; auto. rewrite IH. reflexivity. Qed.

Lemma axis_sum_is_sum (a : Qc) (l : vector Qc) : axis_sum a l = jnp.sum (a :: l).
Proof.
  revert a. induction l as [|b l IH]; intros a; simpl.
  - ring.
  - rewrite IH. reflexivity.
Qed.

Lemma axis_mean_is_mean1 (a : Qc) (l : vector Qc) : axis_mean a l = jnp.mean1 (a :: l).
Proof. unfold axis_mean, jnp.mean1. rewrite axis_sum_is_sum. reflexivity. Qed.

Lemma tangent_mean1 (d : Dual) (l : vector Dual) :
  tangent (jnp.mean1 (d :: l)) = axis_mean (tangent d) (map tangent l).
Proof.
  rewrite axis_mean_is_mean1. unfold jnp.mean1.
  change (tangent (jnp.sum (d :: l)) / qn (length (d :: l))
          = jnp.sum (map tangent (d :: l)) / qn (length (tangent d :: map tangent l)))%Qc.
  rewrite tangent_sum. simpl length. rewrite length_map. reflexivity.
Qed.

Lemma map2_uncurry {A B D : Type} (f : A -> B -> D) (l : list A) (k : list B) :
  map2 f l k = map (fun ab => f (fst ab) (snd ab)) (combine l k).
Proof. revert k. induction l as [|a l IH]; intros [|b k]; simpl; auto. rewrite IH. reflexivity. Qed.

Lemma lift_has_shape (y : matrix Qc) (rc : nat * nat) :
  has_shape y rc -> has_shape (lift_matrix y) rc.
Proof.
  intros [Hl Hr]. split.
  - unfold lift_matrix. rewrite length_map. exact Hl.
  - unfold lift_matrix. apply Forall_map. eapply Forall_impl; [|exact Hr].
    intros r Hlen. unfold lift_vector. rewrite length_map. exact Hlen.
Qed.

Lemma lift_concat (xs : list (matrix Qc)) :
  lift_matrix (concat xs) = concat (map lift_matrix xs).
Proof. unfold lift_matrix. apply concat_map. Qed.

Section ShardsOfABatch.
Variable st : TrainState.
Variable out : nat.
Hypothesis f_rows : row_wise (apply_fn st) out.
Variable m : nat.


(** The gradient on the batch is the mean of the per-shard gradients. *)
Lemma step_grads_of_shards (x0 y0 : matrix Qc) (xs ys : list (matrix Qc)) :
  Forall2 (shard_ok m out) (x0 :: xs) (y0 :: ys) ->
  step_grads st (concat (x0 :: xs)) (concat (y0 :: ys))
  = axis_mean (step_grads st x0 y0) (map2 (step_grads st) xs ys).
Proof.
  intros H. unfold step_grads, jax.value_and_grad. simpl snd.
  rewrite map2_uncurry.
  rewrite (map_ext _ (fun ab =>
             params_grad (fun p => loss_fn st Dual_Scalar p
                                     (lift_matrix (fst ab)) (lift_matrix (snd ab)))
                         (params st))) by reflexivity.
  apply params_grad_mean
    with (c0 := (x0, y0)) (cs := combine xs ys)
         (ctx := fun c p => loss_fn st Dual_Scalar p
                              (lift_matrix (fst c)) (lift_matrix (snd c))).
  intros q.
  change (tangent (loss_fn st Dual_Scalar q (lift_matrix (concat (x0 :: xs)))
                           (lift_matrix (concat (y0 :: ys))))
          = axis_mean
              (tangent (loss_fn st Dual_Scalar q (lift_matrix x0) (lift_matrix y0)))
              (map (fun c => tangent (loss_fn st Dual_Scalar q (lift_matrix (fst c))
                                              (lift_matrix (snd c))))
                   (combine xs ys))).
  rewrite !lift_concat.
  rewrite (@loss_of_shards Dual Dual_Scalar Dual_ScalarLaws st out f_rows q m).
  - cbn [map map2]. rewrite tangent_mean1. f_equal.
    clear. revert ys. induction xs as [|x xs' IH]; intros [|y ys']; cbn [map map2 combine]; auto.
    f_equal. apply IH.
  - clear -H. induction H as [|x y xs' ys' [Hx Hy] _ IH]; simpl; constructor; auto.
    split.
    + unfold lift_matrix. rewrite length_map. exact Hx.
    + apply lift_has_shape. exact Hy.
Qed.
End ShardsOfABatch.

(* ================================================================== *)
(** * The step as one device's program, and its runs under jit and pmap *)
(* ================================================================== *)

Lemma train_step_pmap (st : TrainState) (x y : matrix Qc) :
  train_step "pmap" st x y
  = Pmean "device" (step_grads st x y)
          (fun m => Ret (TrainState.apply_gradients st m, step_loss st x y)).
Proof. reflexivity. Qed.

Lemma train_step_local (mode : string) (st : TrainState) (x y : matrix Qc) :
  (mode =? "pmap")%string = false ->
  train_step mode st x y
  = Ret (TrainState.apply_gradients st (step_grads st x y), step_loss st x y).
Proof.
  intros H. unfold train_step, step_grads, step_loss, jax.value_and_grad.
  rewrite H. reflexivity.
Qed.

Lemma sequence_map_Some {A B : Type} (h : A -> option B) (g : A -> B) (l : list A) :
  (forall a, h a = Some (g a)) -> jax.sequence (map h l) = Some (map g l).
Proof.
  intros H. induction l as [|a l IH]; simpl; auto.
  rewrite H, IH. reflexivity.
Qed.

(** Under pmap every device applies the mean gradient and keeps the loss
    of its own shard. *)
Lemma run_pmap_train_step (t0 : TrainState) (x0 y0 : matrix Qc) (l : list Shard) :
  jax.run_pmap "device" (train_step "pmap" t0 x0 y0)
               (map (fun '(t, xd, yd) => train_step "pmap" t xd yd) l)
  = let m := axis_mean (step_grads t0 x0 y0)
                       (map (fun '(t, xd, yd) => step_grads t xd yd) l) in
    Ok (map (fun '(t, xd, yd) => (TrainState.apply_gradients t m, step_loss t xd yd))
            ((t0, x0, y0) :: l)).
Proof.
  rewrite train_step_pmap. cbn [jax.run_pmap]. rewrite String.eqb_refl.
  rewrite map_map.
  rewrite (@sequence_map_Some _ _ _
             (fun s : Shard =>
                let '(t, xd, yd) := s in
                (step_grads t xd yd,
                 fun m => Ret (G := MLPParams Qc)
                              (TrainState.apply_gradients t m, step_loss t xd yd)))).
  2:{ intros [[t xd] yd]. reflexivity. }
  rewrite !map_map.
  assert (Em : map (fun s : Shard =>
                      fst (let '(t, xd, yd) := s in
                           (step_grads t xd yd,
                            fun m => Ret (G := MLPParams Qc)
                                         (TrainState.apply_gradients t m, step_loss t xd yd))))
                   l
               = map (fun '(t, xd, yd) => step_grads t xd yd) l).
  { apply map_ext. intros [[t xd] yd]. reflexivity. }
  rewrite Em. clear Em.
  set (m := axis_mean (step_grads t0 x0 y0)
                      (map (fun '(t, xd, yd) => step_grads t xd yd) l)).
  rewrite (@sequence_map_Some _ _ _
             (fun s : Shard =>
                let '(t, xd, yd) := s in
                (TrainState.apply_gradients t m, step_loss t xd yd))).
  - reflexivity.
  - intros [[t xd] yd]. reflexivity.
Qed.

(** A pmapped step whose body has no collective: every device works alone. *)
Lemma run_pmap_local (axis_name mode : string) (t0 : TrainState) (x0 y0 : matrix Qc)
    (l : list Shard) :
  (mode =? "pmap")%string = false ->
  jax.run_pmap axis_name (train_step mode t0 x0 y0)
               (map (fun '(t, xd, yd) => train_step mode t xd yd) l)
  = Ok (map (fun '(t, xd, yd) =>
               (TrainState.apply_gradients t (step_grads t xd yd), step_loss t xd yd))
            ((t0, x0, y0) :: l)).
Proof.
  intros H. rewrite train_step_local by exact H. cbn [jax.run_pmap].
  rewrite map_map.
  rewrite (@sequence_map_Some _ _ _
             (fun s : Shard =>
                let '(t, xd, yd) := s in
                (TrainState.apply_gradients t (step_grads t xd yd), step_loss t xd yd))).
  - reflexivity.
  - intros [[t xd] yd]. rewrite train_step_local by exact H. reflexivity.
Qed.

(* ================================================================== *)
(** * The framework calls of the dispatch on well-shaped arrays *)
(* ================================================================== *)


Lemma reshape_ok (a : matrix Qc) (s : Sharding) (d m n : nat) :
  has_shape a (d * m, n) ->
  reshape (Array2 a s) (d, m, n) = ([EvReshape], Ok (Array3 (jnp.rows_of d m a) s)).
Proof.
  intros [Hl Hr]. simpl in Hl, Hr. unfold reshape.
  rewrite (concat_length_rect Hr), Hl, Nat.eqb_refl.
  rewrite (reshape_blocks _ _ Hl Hr). reflexivity.
Qed.

Lemma even_split (b d : nat) : d <> 0 -> b mod d = 0 -> b = d * (b / d).
Proof. intros Hd Hm. pose proof (Nat.div_mod b d Hd). lia. Qed.

Lemma device_count_pos (pf : Platform) : device_count pf <> 0.
Proof. unfold device_count, devices. simpl. discriminate. Qed.


(* ================================================================== *)
(** * The cells, run *)
(* ================================================================== *)





Lemma cell7_single (pf : Platform) (g : Globals) :
  mode g = "jit_single"%string ->
  cell7 pf g
  = ([EvJit],
     Ok (after_dispatch g (batch_data g) (label_data g) (initialized_state g)
                        (mesh g) (data_sharding g) (Jitted train_step))).
Proof. intros H. unfold cell7. rewrite H. reflexivity. Qed.


Lemma cell7_pmap (pf : Platform) (mdl : MLP) (st : TrainState) (x y : matrix Qc)
    (b n : nat) :
  has_shape x (b, n) -> has_shape y (b, 10) -> b mod device_count pf = 0 ->
  let g := workspace pf "pmap" mdl st x y b n in
  let d := device_count pf in
  let here := SingleDeviceSharding (default_device pf) in
  cell7 pf g
  = ([EvReplicate; EvReshape; EvReshape; EvPmap],
     Ok (after_dispatch g (Array3 (jnp.rows_of d (b / d) x) here)
                        (Array3 (jnp.rows_of d (b / d) y) here)
                        (StateStacked (repeat st d))
                        None None (Pmapped train_step "device" (0, 0, 0)))).
Proof.
  intros Hx Hy Hm g d here. unfold cell7.
  cbn [g workspace mode batch_data label_data initialized_state batchsize input_dim
       String.eqb Ascii.eqb Bool.eqb].
  fold d. fold here.
  pose proof (@even_split b _ (@device_count_pos pf) Hm) as E. fold d in E.
  rewrite (@reshape_ok x here d (b / d) n), (@reshape_ok y here d (b / d) 10).
  - reflexivity.
  - rewrite <- E. exact Hy.
  - rewrite <- E. exact Hx.
Qed.











Lemma zip3_repeat {B : Type} (F : TrainState -> matrix Qc -> matrix Qc -> B)
    (st : TrainState) (k : nat) (xs ys : list (matrix Qc)) :
  length xs = k -> length ys = k ->
  map (fun '(t, xd, yd) => F t xd yd) (zip3 (repeat st k) xs ys) = map2 (F st) xs ys.
Proof.
  revert xs ys. induction k as [|k IH]; intros [|x xs] [|y ys] Hx Hy;
    simpl in *; try discriminate; auto.
  f_equal. apply IH; lia.
Qed.

Lemma map2_const {A B D : Type} (c : D) (l : list A) (k : list B) :
  length l = length k -> map2 (fun _ _ => c) l k = repeat c (length l).
Proof.
  revert k. induction l as [|a l IH]; intros [|b k] E; simpl in *; try discriminate; auto.
  f_equal. apply IH. lia.
Qed.

Lemma cell8_pmap (pf : Platform) (g : Globals) (st : TrainState) (sx sy : Sharding)
    (x0 y0 : matrix Qc) (xs ys : list (matrix Qc)) :
  train_step_compiled g = Some (Pmapped train_step "device" (0, 0, 0)) ->
  initialized_state g = StateStacked (repeat st (device_count pf)) ->
  batch_data g = Array3 (x0 :: xs) sx -> label_data g = Array3 (y0 :: ys) sy ->
  S (length xs) = device_count pf -> S (length ys) = device_count pf ->
  mode g = "pmap"%string ->
  let m := axis_mean (step_grads st x0 y0) (map2 (step_grads st) xs ys) in
  cell8 pf g
  = ([EvRun],
     Ok (after_step g
           (StateStacked (repeat (TrainState.apply_gradients st m) (device_count pf)))
           (PerDeviceLoss (map2 (step_loss st) (x0 :: xs) (y0 :: ys))))).
Proof.
  intros Hc Hs Hx Hy Lx Ly Hm m. unfold cell8. rewrite Hc, Hs, Hx, Hy, Hm.
  assert (Ly' : length ys = length xs) by lia.
  unfold call_compiled. rewrite <- Lx. cbn [repeat].
  rewrite repeat_length, Ly', !Nat.eqb_refl, Nat.leb_refl. cbn [andb].
  rewrite run_pmap_train_step. cbv zeta.
  rewrite (@zip3_repeat _ (fun t xd yd => step_grads t xd yd)) by auto.
  fold m. cbn [nb_bind nb_emit lift_result nb_ret app fst snd map].
  rewrite !map_map.
  rewrite (map_ext (fun s : Shard =>
                      fst (let '(t, xd, yd) := s in
                           (TrainState.apply_gradients t m, step_loss t xd yd)))
                   (fun '(t, xd, yd) => TrainState.apply_gradients t m)).
  2:{ intros [[t xd] yd]. reflexivity. }
  rewrite (map_ext (fun s : Shard =>
                      snd (let '(t, xd, yd) := s in
                           (TrainState.apply_gradients t m, step_loss t xd yd)))
                   (fun '(t, xd, yd) => step_loss t xd yd)).
  2:{ intros [[t xd] yd]. reflexivity. }
  rewrite (@zip3_repeat _ (fun t xd yd => TrainState.apply_gradients t m)) by auto.
  rewrite (@zip3_repeat _ (fun t xd yd => step_loss t xd yd)) by auto.
  rewrite map2_const by lia.
  reflexivity.
Qed.

(** Shards cut by the reshape are well-shaped and make up the batch. *)
Lemma shards_of_batch (d m n out : nat) (x y : matrix Qc) :
  has_shape x (d * m, n) -> has_shape y (d * m, out) ->
  Forall2 (shard_ok m out) (jnp.rows_of d m x) (jnp.rows_of d m y)
  /\ concat (jnp.rows_of d m x) = x /\ concat (jnp.rows_of d m y) = y.
Proof.
  intros [Lx Rx] [Ly Ry]. simpl in *. repeat split.
  - pose proof (blocks_length d m x Lx) as Bx.
    pose proof (blocks_length d m y Ly) as By.
    pose proof (blocks_Forall d m Ry) as Wy.
    revert Bx By Wy. generalize (jnp.rows_of d m x) (jnp.rows_of d m y)
                                (rows_of_length d m x) (rows_of_length d m y).
    clear. intros l k. revert k d.
    induction l as [|a l IH]; intros [|c k] d Hl Hk Bx By Wy; simpl in *; subst;
      try discriminate; constructor.
    + inversion Bx; inversion By; inversion Wy; subst. repeat split; auto.
    + inversion Bx; inversion By; inversion Wy; subst.
      apply (IH k (length l)); auto.
  - apply blocks_concat. exact Lx.
  - apply blocks_concat. exact Ly.
Qed.




Lemma step_pmap (pf : Platform) (mdl : MLP) (st : TrainState) (x y : matrix Qc)
    (b n : nat) :
  has_shape x (b, n) -> has_shape y (b, 10) -> b mod device_count pf = 0 ->
  let g := workspace pf "pmap" mdl st x y b n in
  let d := device_count pf in
  let xs := jnp.rows_of d (b / d) x in
  let ys := jnp.rows_of d (b / d) y in
  exists g' m,
    dispatch_and_step pf g
    = ([EvReplicate; EvReshape; EvReshape; EvPmap; EvRun], Ok g')
    /\ axis_mean_list (map2 (step_grads st) xs ys) = Some m
    /\ loss g' = Some (PerDeviceLoss (map2 (step_loss st) xs ys))
    /\ state g' = Some (StateStacked (repeat (TrainState.apply_gradients st m) d)).
Proof.
  intros Hx Hy Hm g d xs ys. unfold dispatch_and_step.
  unfold g. rewrite cell7_pmap by assumption. cbn [nb_bind].
  fold d. fold xs. fold ys.
  assert (Ed : d = S (length (other_devices pf))) by reflexivity.
  assert (Lx : length xs = d) by apply rows_of_length.
  assert (Ly : length ys = d) by apply rows_of_length.
  destruct xs as [|x0 xs']; [rewrite Ed in Lx; discriminate|].
  destruct ys as [|y0 ys']; [rewrite Ed in Ly; discriminate|].
  erewrite cell8_pmap; try reflexivity; try exact Lx; try exact Ly.
  do 2 eexists. repeat split.
Qed.


(** Where the device count does not divide the batch size, the framework
    call of the sharded branch raises and its exception surfaces: four rows
    on three devices. *)
Example uneven_batch_surfaces :
  snd (prepare three_devices (ex_hyper "pmap"))
    = Raise (mkExn TypeError "cannot reshape array" Framework)
  /\ snd (prepare three_devices (ex_hyper "jit_multi"))
    = Raise (mkExn ValueError
               "device_put: the sharding does not evenly divide the array" Framework)
  /\ exists g, snd (prepare three_devices (ex_hyper "jit_single")) = Ok g.
Proof.
  split; [reflexivity|]. split; [reflexivity|].
  eexists. reflexivity.
Qed.

(* ================================================================== *)
(** * Properties of the notebook *)
(* ================================================================== *)











(** The mean of the gradients on the shards the reshape cuts is the gradient
    on the whole batch. *)
Lemma pmean_grads_full (pf : Platform) (mdl : MLP)
    (p : MLPParams Qc) (tx0 : optax.GradientTransformation)
    (x y : matrix Qc) (b n : nat) :
  let st := TrainState.create (apply mdl) p tx0 in
  let d := device_count pf in
  has_shape x (b, n) -> has_shape y (b, output_dim mdl) -> b mod d = 0 ->
  axis_mean_list (map2 (step_grads st) (jnp.rows_of d (b / d) x)
                       (jnp.rows_of d (b / d) y))
    = Some (step_grads st x y)
  /\ has_shape x (d * (b / d), n) /\ has_shape y (d * (b / d), output_dim mdl).
Proof.
  intros st d Hx Hy Hm.
  pose proof (@even_split b d (@device_count_pos pf) Hm) as E.
  rewrite E in Hx, Hy. split; [|split; assumption].
  destruct (@shards_of_batch d (b / d) n (output_dim mdl) x y Hx Hy) as [Hs [Cx Cy]].
  assert (Ed : d = S (length (other_devices pf))) by reflexivity.
  pose proof (rows_of_length d (b / d) x) as Lx.
  pose proof (rows_of_length d (b / d) y) as Ly.
  destruct (jnp.rows_of d (b / d) x) as [|x0 xs]; [rewrite Ed in Lx; discriminate|].
  destruct (jnp.rows_of d (b / d) y) as [|y0 ys]; [rewrite Ed in Ly; discriminate|].
  cbn [map2 axis_mean_list]. f_equal.
  rewrite <- (@step_grads_of_shards st (output_dim mdl) (@apply_row_wise mdl)
                (b / d) x0 y0 xs ys Hs).
  rewrite Cx, Cy. reflexivity.
Qed.




(** The differentiation model against a calculation by hand: on the example
    the output layer sees the errors 1 and 3, so its bias gradient is
    2 * (1 + 3) / 20 per entry, and so on back through the relu. *)
Example step_grads_by_hand :
  params_values (step_grads ex_state ex_x ex_y)
  = [([[14; 0]; [0; 0]], [4; 0]);
     ([repeat (7 # 5) 10; repeat 0 10], repeat (2 # 5) 10)]%Q.
Proof. vm_compute. reflexivity. Qed.






(** C5: the body of [train_step] takes the mean of the gradients over the
    'device' axis exactly when the mode is 'pmap'; under 'jit_single' and
    'jit_multi' it applies the gradients of value_and_grad as they are. *)
Theorem pmean_iff_pmap (mode : string) (st : TrainState) (x y : matrix Qc) :
  uses_pmean (train_step mode st x y) = (mode =? "pmap")%string
  /\ (mode = "pmap"%string ->
      train_step mode st x y
      = Pmean "device" (step_grads st x y)
              (fun m => Ret (TrainState.apply_gradients st m, step_loss st x y)))
  /\ (mode = "jit_single"%string \/ mode = "jit_multi"%string ->
      train_step mode st x y
      = Ret (TrainState.apply_gradients st (step_grads st x y), step_loss st x y)).
Proof.
  split; [|split].
  - destruct (mode =? "pmap")%string eqn:E.
    + apply String.eqb_eq in E. subst mode. reflexivity.
    + rewrite train_step_local by exact E. reflexivity.
  - intros E. subst mode. apply train_step_pmap.
  - intros [E | E]; subst mode; apply train_step_local; reflexivity.
Qed.

Lemma pmean_iff_pmap_witness :
  train_step "pmap" ex_state ex_x ex_y
  = Pmean "device" (step_grads ex_state ex_x ex_y)
          (fun m => Ret (TrainState.apply_gradients ex_state m,
                         step_loss ex_state ex_x ex_y))
  /\ train_step "jit_multi" ex_state ex_x ex_y
     = Ret (TrainState.apply_gradients ex_state (step_grads ex_state ex_x ex_y),
            step_loss ex_state ex_x ex_y).
Proof.
  split.
  - apply (proj1 (proj2 (pmean_iff_pmap "pmap" ex_state ex_x ex_y))). reflexivity.
  - apply (proj2 (proj2 (pmean_iff_pmap "jit_multi" ex_state ex_x ex_y))).
    right. reflexivity.
Defined.



Lemma apply_gradients_one_update (st : TrainState) (grads : MLPParams Qc) :
  one_update st (TrainState.apply_gradients st grads).
Proof.
  split.
  - exists grads. reflexivity.
  - unfold TrainState.apply_gradients.
    destruct (optax.update (tx st) grads (opt_state st) (params st)). reflexivity.
Qed.

Lemma zip3_one_update (F : Shard -> MLPParams Qc) (ts : list TrainState)
    (xs ys : list (matrix Qc)) :
  length ts = length xs -> length xs = length ys ->
  Forall2 one_update ts
    (map (fun s : Shard => TrainState.apply_gradients (fst (fst s)) (F s))
         (zip3 ts xs ys)).
Proof.
  revert xs ys. induction ts as [|t ts IH]; intros [|x xs] [|y ys] H1 H2;
    simpl in *; try discriminate; constructor.
  - apply apply_gradients_one_update.
  - apply IH; lia.
Qed.

(** What a call of a compiled [train_step] returns is, replica by replica,
    the argument state after one [apply_gradients]. *)
Lemma call_replaces_state (pf : Platform) (mode : string) (c : Compiled)
    (st : StateVal) (x y : ArrayVal) (st' : StateVal) (l : LossVal) :
  wraps_train_step c ->
  snd (call_compiled pf mode c st x y) = Ok (st', l) ->
  state_replaced st (Some st').
Proof.
  intros W H. destruct c as [f | f axis_name in_axes]; simpl in W.
  - subst f. destruct st as [t s | ts]; destruct x as [xd sx | xd sx];
      destruct y as [yd sy | yd sy]; simpl in H; try discriminate.
    destruct (mode =? "pmap")%string eqn:E.
    + apply String.eqb_eq in E. subst mode. rewrite train_step_pmap in H.
      simpl in H. discriminate.
    + rewrite train_step_local in H by exact E. simpl in H.
      inversion H. simpl. apply apply_gradients_one_update.
  - destruct W as [Wf [Wa Wi]]. subst f axis_name in_axes.
    destruct st as [t s | [|t0 ts]]; destruct x as [xd sx | [|x0 xs] sx];
      destruct y as [yd sy | [|y0 ys] sy]; simpl in H; try discriminate.
    destruct (length ts =? length xs) eqn:L1; [|simpl in H; discriminate].
    destruct (length xs =? length ys) eqn:L2; [|simpl in H; discriminate].
    apply Nat.eqb_eq in L1. apply Nat.eqb_eq in L2.
    destruct (_ <=? _); [|simpl in H; discriminate].
    destruct (mode =? "pmap")%string eqn:E.
    + apply String.eqb_eq in E. subst mode.
      cbn [andb nb_bind nb_emit] in H. rewrite run_pmap_train_step in H.
      cbv zeta in H.
      remember (axis_mean (step_grads t0 x0 y0)
                          (map (fun '(t, xd, yd) => step_grads t xd yd)
                               (zip3 ts xs ys))) as m eqn:Em.
      clear Em. cbn [lift_result nb_ret app fst snd map] in H.
      inversion H. cbn [state_replaced]. constructor.
      * apply apply_gradients_one_update.
      * rewrite map_map.
        erewrite map_ext; [apply (@zip3_one_update (fun _ => m)); assumption|].
        intros [[t xd] yd]. reflexivity.
    + cbn [andb nb_bind nb_emit] in H. rewrite run_pmap_local in H by exact E.
      cbn [lift_result nb_ret app fst snd map] in H.
      inversion H. cbn [state_replaced]. constructor.
      * apply apply_gradients_one_update.
      * rewrite map_map.
        erewrite map_ext;
          [apply (@zip3_one_update
                    (fun s => step_grads (fst (fst s)) (snd (fst s)) (snd s)));
           assumption|].
        intros [[t xd] yd]. reflexivity.
Qed.

(** C7: the call of the compiled step leaves the state it was given (and the
    batch) as they were, under their names, and binds [state] to a new value:
    the given state after exactly one [apply_gradients], its step counter
    one higher. *)
Theorem step_replaces_state (pf : Platform) (g g' : Globals) (c : Compiled) :
  train_step_compiled g = Some c -> wraps_train_step c ->
  snd (cell8 pf g) = Ok g' ->
  initialized_state g' = initialized_state g
  /\ batch_data g' = batch_data g /\ label_data g' = label_data g
  /\ state_replaced (initialized_state g) (state g').
Proof.
  intros Hc W H. unfold cell8 in H. rewrite Hc in H.
  pose proof (@call_replaces_state pf (mode g) c (initialized_state g)
                (batch_data g) (label_data g)) as R.
  destruct (call_compiled pf (mode g) c (initialized_state g)
                          (batch_data g) (label_data g)) as [t [[st' l]|e]];
    simpl in H; [|discriminate].
  inversion H. subst g'. simpl.
  repeat split; auto.
  apply (R st' l W). reflexivity.
Qed.

Lemma step_replaces_state_witness :
  initialized_state (ex_stepped "pmap") = initialized_state (ex_prepared "pmap")
  /\ batch_data (ex_stepped "pmap") = batch_data (ex_prepared "pmap")
  /\ label_data (ex_stepped "pmap") = label_data (ex_prepared "pmap")
  /\ state_replaced (initialized_state (ex_prepared "pmap")) (state (ex_stepped "pmap")).
Proof.
  apply (@step_replaces_state two_devices (ex_prepared "pmap") (ex_stepped "pmap")
           (Pmapped train_step "device" (0, 0, 0))).
  - reflexivity.
  - simpl. auto.
  - reflexivity.
Defined.

(** C8: under 'jit_single' the dispatch only compiles: the state, the batch
    and the labels are bound to the same values as before, and the only
    device event is the jit of [train_step]. *)
Theorem jit_single_leaves_state_and_batch (pf : Platform) (g : Globals) :
  mode g = "jit_single"%string ->
  exists g',
    cell7 pf g = ([EvJit], Ok g')
    /\ initialized_state g' = initialized_state g
    /\ batch_data g' = batch_data g /\ label_data g' = label_data g
    /\ train_step_compiled g' = Some (Jitted train_step).
Proof.
  intros H. rewrite cell7_single by exact H.
  eexists. repeat split.
Qed.

Lemma jit_single_leaves_state_and_batch_witness :
  exists g',
    cell7 two_devices (ex_workspace "jit_single") = ([EvJit], Ok g')
    /\ initialized_state g' = initialized_state (ex_workspace "jit_single")
    /\ batch_data g' = batch_data (ex_workspace "jit_single")
    /\ label_data g' = label_data (ex_workspace "jit_single")
    /\ train_step_compiled g' = Some (Jitted train_step).
Proof.
  apply (@jit_single_leaves_state_and_batch two_devices (ex_workspace "jit_single")).
  reflexivity.
Defined.




Lemma Qc_sum_nonneg (l : list Qc) :
  Forall (fun v => (0 <= v)%Qc) l -> (0 <= jnp.sum l)%Qc.
Proof.
  induction 1 as [|v l Hv _ IH]; simpl.
  - apply Qcle_refl.
  - change (0 + 0 <= v + jnp.sum l)%Qc. apply Qcplus_le_compat; assumption.
Qed.




(* ================================================================== *)
(** * Further properties of the cells *)
(* ================================================================== *)


(** X2: [MLP.__call__] treats the rows of a batch independently: the output
    for a batch is, row by row, the output for the one-row batches. *)
Theorem MLP_rows_independent {R : Type} {S : Scalar R} (m : MLP) (p : MLPParams R)
    (x : matrix R) :
  MLP.__call__ m p x = concat (map (fun row => MLP.__call__ m p [row]) x).
Proof.
  induction x as [|row x IH].
  - pose proof (call_length m p (@nil (list R))) as L.
    destruct (MLP.__call__ m p []); [reflexivity | discriminate L].
  - change (row :: x) with ([row] ++ x).
    rewrite call_app, IH. reflexivity.
Qed.

(* ================================================================== *)
(** * The replicas of 'pmap' against the single device *)
(* ================================================================== *)



Lemma rows_of_one {A : Type} (b : nat) (a : list A) :
  length a = b -> jnp.rows_of 1 (b / 1) a = [a].
Proof.
  intros H. rewrite Nat.div_1_r. simpl. rewrite firstn_all2 by lia. reflexivity.
Qed.

(** X8: on a machine with one device the 'pmap' path degenerates to the
    single-device step: the one per-device loss is the 'jit_single' loss and
    the one replica is the 'jit_single' state, for every batch size. *)
Theorem pmap_on_one_device (pf : Platform) (nl hd : nat) (p : MLPParams Qc)
    (tx0 : optax.GradientTransformation) (x y : matrix Qc) (b n : nat) :
  let mdl := mkMLP nl hd 10 in
  let st := TrainState.create (apply mdl) p tx0 in
  other_devices pf = [] ->
  has_shape x (b, n) -> has_shape y (b, 10) ->
  loss_after pf (workspace pf "pmap" mdl st x y b n)
    = Some (PerDeviceLoss [step_loss st x y])
  /\ state_after pf (workspace pf "pmap" mdl st x y b n)
    = Some (StateStacked [TrainState.apply_gradients st (step_grads st x y)]).
Proof.
  intros mdl st H1 Hx Hy.
  assert (D1 : device_count pf = 1) by (unfold device_count, devices; rewrite H1; reflexivity).
  assert (Hm : b mod device_count pf = 0) by (rewrite D1; apply Nat.mod_1_r).
  destruct (@step_pmap pf mdl st x y b n Hx Hy Hm) as [g [m [E [M [L S]]]]].
  destruct (@pmean_grads_full pf mdl p tx0 x y b n Hx Hy Hm) as [G _].
  fold st in G. rewrite G in M. inversion M; subst m.
  unfold loss_after, state_after. rewrite E, L, S, D1.
  rewrite (@rows_of_one _ b x (proj1 Hx)), (@rows_of_one _ b y (proj1 Hy)).
  split; reflexivity.
Qed.

Lemma pmap_on_one_device_witness :
  loss_after one_device
    (workspace one_device "pmap" (mkMLP 1 2 10) ex_state ex_x ex_y 2 2)
    = Some (PerDeviceLoss [step_loss ex_state ex_x ex_y])
  /\ state_after one_device
       (workspace one_device "pmap" (mkMLP 1 2 10) ex_state ex_x ex_y 2 2)
    = Some (StateStacked
              [TrainState.apply_gradients ex_state (step_grads ex_state ex_x ex_y)]).
Proof.
  apply (@pmap_on_one_device one_device 1 2 ex_params (descent (qn 1)) ex_x ex_y 2 2).
  - reflexivity.
  - split; [reflexivity | repeat constructor].
  - split; [reflexivity | repeat constructor].
Defined.







(* ================================================================== *)
(** * The dispatch: regrouping, device work, reruns *)
(* ================================================================== *)

Lemma blocks_have_shape {A : Type} (d m n : nat) (a : list (list A)) :
  has_shape a (d * m, n) ->
  Forall (fun blk => has_shape blk (m, n)) (jnp.rows_of d m a).
Proof.
  intros [L W]. simpl in L, W.
  pose proof (blocks_length d m a L) as BL.
  pose proof (blocks_Forall d m W) as BW.
  apply Forall_forall. intros blk Hin. split; simpl.
  - apply (proj1 (Forall_forall _ _) BL blk Hin).
  - apply (proj1 (Forall_forall _ _) BW blk Hin).
Qed.

(** X11: the 'pmap' branch only regroups the data: when the device count
    divides the batch size, the batch and the labels become one
    (batchsize // device_count)-row block per device, the blocks in order
    make up the original arrays again, and the state becomes one copy per
    device. *)
Theorem pmap_dispatch_regroups (pf : Platform) (mdl : MLP) (st : TrainState)
    (x y : matrix Qc) (b n : nat) :
  let d := device_count pf in
  has_shape x (b, n) -> has_shape y (b, 10) -> b mod d = 0 ->
  exists g xs ys sx sy,
    snd (cell7 pf (workspace pf "pmap" mdl st x y b n)) = Ok g
    /\ batch_data g = Array3 xs sx /\ label_data g = Array3 ys sy
    /\ length xs = d /\ length ys = d
    /\ Forall (fun blk => has_shape blk (b / d, n)) xs
    /\ Forall (fun blk => has_shape blk (b / d, 10)) ys
    /\ concat xs = x /\ concat ys = y
    /\ initialized_state g = StateStacked (repeat st d).
Proof.
  intros d Hx Hy Hm.
  rewrite (@cell7_pmap pf mdl st x y b n Hx Hy Hm). fold d.
  pose proof (@even_split b d (@device_count_pos pf) Hm) as E.
  rewrite E in Hx, Hy.
  do 5 eexists. cbn [snd after_dispatch batch_data label_data initialized_state].
  split; [reflexivity|]. split; [reflexivity|]. split; [reflexivity|].
  split; [apply rows_of_length|]. split; [apply rows_of_length|].
  split; [apply blocks_have_shape; exact Hx|].
  split; [apply blocks_have_shape; exact Hy|].
  split; [apply blocks_concat; exact (proj1 Hx)|].
  split; [apply blocks_concat; exact (proj1 Hy)|].
  reflexivity.
Qed.

Lemma pmap_dispatch_regroups_witness :
  exists g xs ys sx sy,
    snd (cell7 two_devices (workspace two_devices "pmap" ex_model ex_state ex_x ex_y 2 2))
      = Ok g
    /\ batch_data g = Array3 xs sx /\ label_data g = Array3 ys sy
    /\ length xs = device_count two_devices /\ length ys = device_count two_devices
    /\ Forall (fun blk => has_shape blk (2 / device_count two_devices, 2)) xs
    /\ Forall (fun blk => has_shape blk (2 / device_count two_devices, 10)) ys
    /\ concat xs = ex_x /\ concat ys = ex_y
    /\ initialized_state g = StateStacked (repeat ex_state (device_count two_devices)).
Proof.
  apply (@pmap_dispatch_regroups two_devices ex_model ex_state ex_x ex_y 2 2).
  - split; [reflexivity | repeat constructor].
  - split; [reflexivity | repeat constructor].
  - reflexivity.
Defined.





Lemma with_sharding_twice (a : ArrayVal) (s : Sharding) :
  with_sharding (with_sharding a s) s = with_sharding a s
  /\ shape_of (with_sharding a s) = shape_of a.
Proof. destruct a; split; reflexivity. Qed.

(** X14: running the dispatch cell a second time in a jit mode repeats the
    same device work and leaves the namespace as the first run left it. *)
Theorem jit_dispatch_rerun (pf : Platform) (g g1 : Globals) :
  mode g <> "pmap"%string ->
  snd (cell7 pf g) = Ok g1 ->
  cell7 pf g1 = (fst (cell7 pf g), Ok g1).
Proof.
  intros Hp H. unfold cell7 in *.
  destruct (mode g =? "jit_multi")%string eqn:M1.
  - unfold device_put in H at 1.
    destruct (partition_ok _ _ (shape_of (batch_data g))) eqn:P1;
      [|simpl in H; discriminate].
    cbn [nb_bind nb_emit nb_ret] in H.
    unfold device_put in H at 1.
    destruct (partition_ok _ _ (shape_of (label_data g))) eqn:P2;
      [|simpl in H; discriminate].
    cbn [nb_bind nb_emit nb_ret] in H.
    unfold device_put_state in H.
    cbn [mesh_sharding spec_of] in H.
    destruct (initialized_state g) as [t s | sts] eqn:S; [|simpl in H; discriminate].
    simpl in H. inversion H. subst g1. clear H.
    cbn [after_dispatch mode batch_data label_data initialized_state].
    rewrite M1.
    unfold device_put.
    rewrite (proj2 (with_sharding_twice (batch_data g) _)), P1.
    rewrite (proj2 (with_sharding_twice (label_data g) _)), P2.
    rewrite (proj1 (with_sharding_twice (batch_data g) _)).
    rewrite (proj1 (with_sharding_twice (label_data g) _)).
    reflexivity.
  - destruct (mode g =? "pmap")%string eqn:M2.
    + apply String.eqb_eq in M2. contradiction.
    + destruct (mode g =? "jit_single")%string eqn:M3; [|simpl in H; discriminate].
      simpl in H. inversion H. subst g1. clear H.
      cbn [after_dispatch mode batch_data label_data initialized_state].
      rewrite M1, M2, M3. reflexivity.
Qed.

Lemma jit_dispatch_rerun_witness :
  cell7 two_devices (ex_prepared "jit_multi")
  = (fst (cell7 two_devices (ex_workspace "jit_multi")), Ok (ex_prepared "jit_multi")).
Proof.
  apply (@jit_dispatch_rerun two_devices (ex_workspace "jit_multi")
           (ex_prepared "jit_multi")).
  - discriminate.
  - reflexivity.
Defined.

(* ================================================================== *)
(** * The gradients: shape, and the perfect fit *)
(* ================================================================== *)






Lemma Qc_sum_zero (l : list Qc) :
  Forall (fun v => (0 <= v)%Qc) l ->
  (jnp.sum l = 0%Qc <-> Forall (eq 0%Qc) l).
Proof.
  induction 1 as [|v l Hv Hl IH]; simpl.
  - split; auto.
  - pose proof (Qc_sum_nonneg Hl) as Hs. split.
    + intros E.
      assert (Ev : v = 0%Qc).
      { apply Qcle_antisym; [|exact Hv].
        rewrite <- E. rewrite <- (Qcplus_0_r v) at 1.
        apply Qcplus_le_compat; [apply Qcle_refl | exact Hs]. }
      subst v. constructor; [reflexivity|].
      apply IH. rewrite <- E. ring.
    + intros F. inversion F; subst. rewrite (proj2 IH) by assumption. ring.
Qed.





Lemma Qc_sub_zero (u v : Qc) : (0 = u - v <-> u = v)%Qc.
Proof.
  split; intros E.
  - rewrite <- (Qcplus_0_l v), E. ring.
  - subst. ring.
Qed.

Lemma subtract_zero_iff (a b : matrix Qc) :
  Forall2 (fun r r' => length r = length r') a b ->
  (zero_matrix (jnp.subtract a b) <-> a = b).
Proof.
  unfold zero_matrix, jnp.subtract.
  induction 1 as [|r r' a b Hr _ IH]; simpl.
  - split; auto.
  - split.
    + intros F. inversion F as [|? ? Fr Fa]; subst. f_equal; [|apply IH; exact Fa].
      clear -Hr Fr. revert r' Hr Fr.
      induction r as [|u r IHr]; intros [|v r'] Hr Fr; simpl in *; try discriminate; auto.
      inversion Fr; subst. f_equal.
      * apply Qc_sub_zero. assumption.
      * apply IHr; auto.
    + intros E. inversion E; subst. constructor; [|apply IH; reflexivity].
      clear. induction r' as [|v r IHr]; simpl; constructor; auto.
      apply Qc_sub_zero. reflexivity.
Qed.


Lemma matrix_values_eq (a b : matrix Qc) :
  map (map this) a = map (map this) b -> a = b.
Proof.
  revert b. induction a as [|r a IH]; intros [|r' b] E; simpl in E;
    try discriminate; auto.
  inversion E as [[Er Ea]]. f_equal; [|apply IH; exact Ea].
  clear -Er. revert r' Er.
  induction r as [|u r IHr]; intros [|v r'] Er; simpl in Er; try discriminate; auto.
  inversion Er as [[Eu Erest]]. f_equal; [|apply IHr; exact Erest].
  apply Qc_is_canon. rewrite Eu. reflexivity.
Qed.



Lemma primal_seed_from (k s : nat) (v : vector Qc) :
  map primal
      (map (fun '(i, a) => mkDual a (if i =? k then 1%Qc else 0%Qc))
           (combine (seq s (length v)) v)) = v.
Proof.
  revert s. induction v as [|a v IH]; intros s; simpl; auto.
  rewrite IH. reflexivity.
Qed.

Lemma primal_seed (k : nat) (v : vector Qc) : map primal (seed_vector k v) = v.
Proof. apply primal_seed_from. Qed.

Lemma primal_lift_vector (v : vector Qc) : map primal (lift_vector v) = v.
Proof.
  unfold lift_vector. rewrite map_map. simpl. apply map_id.
Qed.

Lemma primal_lift_matrix (a : matrix Qc) : primal_matrix (lift_matrix a) = a.
Proof.
  unfold primal_matrix, lift_matrix. rewrite map_map.
  rewrite <- (map_id a) at 2. apply map_ext. intros v. apply primal_lift_vector.
Qed.

Lemma primal_lift_dense (d : DenseParams Qc) : primal_dense (lift_dense d) = d.
Proof.
  destruct d as [k b]. unfold primal_dense, lift_dense. simpl.
  rewrite primal_lift_matrix, primal_lift_vector. reflexivity.
Qed.

Lemma primal_lift_layers (l : list (DenseParams Qc)) :
  map primal_dense (map lift_dense l) = l.
Proof.
  rewrite map_map. rewrite <- (map_id l) at 2. apply map_ext.
  intros d. apply primal_lift_dense.
Qed.

Lemma plug_map {A B : Type} (f : A -> B) (i : nat) (x : A) (l : list A) :
  map f (plug i x l) = plug i (f x) (map f l).
Proof.
  unfold plug. rewrite map_app. cbn [map]. rewrite firstn_map, skipn_map. reflexivity.
Qed.

Lemma plug_nth {A : Type} (i : nat) (l : list A) (d : A) :
  i < length l -> plug i (nth i l d) l = l.
Proof.
  unfold plug. revert i. induction l as [|a l IH]; intros i Hi; simpl in Hi; [lia|].
  destruct i as [|i]; simpl; auto.
  f_equal. apply IH. lia.
Qed.

Lemma vector_grad_zero (f : vector Dual -> Dual) (v : vector Qc) :
  (forall vd, map primal vd = v -> tangent (f vd) = 0%Qc) ->
  Forall (eq 0%Qc) (vector_grad f v).
Proof.
  intros H. unfold vector_grad. apply Forall_map. apply Forall_forall.
  intros k _. symmetry. apply H. apply primal_seed.
Qed.

Lemma matrix_grad_zero (f : matrix Dual -> Dual) (a : matrix Qc) :
  (forall ad, primal_matrix ad = a -> tangent (f ad) = 0%Qc) ->
  zero_matrix (matrix_grad f a).
Proof.
  intros H. unfold matrix_grad, zero_matrix. apply Forall_map. apply Forall_forall.
  intros r Hr. apply in_seq in Hr. apply vector_grad_zero.
  intros vd Hvd. apply H. unfold primal_matrix.
  rewrite plug_map, Hvd. fold (primal_matrix (lift_matrix a)).
  rewrite primal_lift_matrix. apply plug_nth. lia.
Qed.

Lemma dense_grad_zero (f : DenseParams Dual -> Dual) (p : DenseParams Qc) :
  (forall pd, primal_dense pd = p -> tangent (f pd) = 0%Qc) ->
  zero_dense (dense_grad f p).
Proof.
  intros H. destruct p as [k b]. split; simpl.
  - apply matrix_grad_zero. intros ad Had. apply H.
    unfold primal_dense. simpl. rewrite Had, primal_lift_vector. reflexivity.
  - apply vector_grad_zero. intros vd Hvd. apply H.
    unfold primal_dense. simpl. rewrite Hvd, primal_lift_matrix. reflexivity.
Qed.

Lemma params_grad_zero (f : MLPParams Dual -> Dual) (p : MLPParams Qc) :
  (forall pd, primal_params pd = p -> tangent (f pd) = 0%Qc) ->
  zero_params (params_grad f p).
Proof.
  intros H. destruct p as [ls o]. split; simpl.
  - apply Forall_map. apply Forall_forall. intros i Hi. apply in_seq in Hi.
    apply dense_grad_zero. intros pd Hpd. apply H.
    unfold primal_params. simpl.
    rewrite plug_map, Hpd, primal_lift_layers, primal_lift_dense.
    rewrite plug_nth by lia. reflexivity.
  - apply dense_grad_zero. intros pd Hpd. apply H.
    unfold primal_params. simpl. rewrite Hpd, primal_lift_layers. reflexivity.
Qed.

Lemma primal_sum (l : vector Dual) : primal (jnp.sum l) = jnp.sum (map primal l).
Proof. induction l as [|d l IH]; simpl; auto. rewrite IH. reflexivity. Qed.

Lemma primal_dot (u v : vector Dual) :
  primal (nn.dot u v) = nn.dot (map primal u) (map primal v).
Proof.
  unfold nn.dot. rewrite primal_sum. f_equal.
  revert v. induction u as [|a u IH]; intros [|b v]; simpl; auto.
  rewrite IH. reflexivity.
Qed.

Lemma primal_nth (j : nat) (v : vector Dual) :
  primal (nth j v zero) = nth j (map primal v) zero.
Proof. change (@zero Qc _) with (primal zero). symmetry. apply map_nth. Qed.

Lemma primal_column (j : nat) (k : matrix Dual) :
  map primal (nn.column j k) = nn.column j (primal_matrix k).
Proof.
  unfold nn.column, primal_matrix. rewrite !map_map. apply map_ext.
  intros row. apply primal_nth.
Qed.

Lemma primal_Dense (n : nat) (p : DenseParams Dual) (x : matrix Dual) :
  primal_matrix (nn.Dense n p x) = nn.Dense n (primal_dense p) (primal_matrix x).
Proof.
  unfold nn.Dense. unfold primal_matrix. rewrite !map_map. apply map_ext.
  intros row. rewrite !map_map. apply map_ext. intros j.
  cbn [add Dual_Scalar Qc_Scalar primal kernel bias primal_dense]. rewrite primal_dot, primal_column, primal_nth.
  reflexivity.
Qed.

Lemma primal_relu (x : matrix Dual) :
  primal_matrix (nn.relu x) = nn.relu (primal_matrix x).
Proof.
  unfold nn.relu, primal_matrix. rewrite !map_map. apply map_ext.
  intros row. rewrite !map_map. apply map_ext. intros d.
  cbn [relu Dual_Scalar Qc_Scalar]. unfold Dual_relu, Qc_relu.
  destruct (0 ?= primal d)%Qc; reflexivity.
Qed.

Lemma primal_call (m : MLP) (p : MLPParams Dual) (x : matrix Dual) :
  primal_matrix (MLP.__call__ m p x) = MLP.__call__ m (primal_params p) (primal_matrix x).
Proof.
  unfold MLP.__call__, MLP.setup. rewrite primal_Dense. f_equal.
  generalize (enumerate (map (fun _ : nat => mkDense (hidden_dim m)) (seq 0 (n_layers m)))).
  intros ls. revert x. induction ls as [|[i layer] ls IH]; intros x; simpl; auto.
  rewrite IH. f_equal. rewrite primal_relu, primal_Dense. do 2 f_equal.
  change (@empty_dense Qc) with (primal_dense (@empty_dense Dual)).
  symmetry. apply map_nth.
Qed.

Lemma primal_subtract (a b : matrix Dual) :
  primal_matrix (jnp.subtract a b) = jnp.subtract (primal_matrix a) (primal_matrix b).
Proof.
  unfold jnp.subtract, primal_matrix.
  revert b. induction a as [|r a IH]; intros [|r' b]; simpl; auto.
  rewrite IH. f_equal.
  clear. revert r'. induction r as [|u r IH]; intros [|v r']; simpl; auto.
  rewrite IH. reflexivity.
Qed.

Lemma tangent_squares_zero (r : matrix Dual) :
  zero_matrix (primal_matrix r) ->
  Forall (eq 0%Qc) (map tangent (concat (jnp.square r))).
Proof.
  unfold zero_matrix, primal_matrix, jnp.square.
  induction r as [|row r IH]; simpl; intros H; [constructor|].
  inversion H as [|? ? Hrow Hr]; subst.
  rewrite map_app. apply Forall_app. split; [|apply IH; exact Hr].
  clear -Hrow. induction row as [|d row IH]; simpl in *; [constructor|].
  inversion Hrow as [|? ? Hd Hrest]; subst. constructor; [|apply IH; exact Hrest].
  rewrite <- Hd. ring.
Qed.

Lemma subtract_self (a : matrix Qc) : zero_matrix (jnp.subtract a a).
Proof.
  apply subtract_zero_iff; [|reflexivity].
  induction a; constructor; auto.
Qed.

(** X4: at a perfect fit the gradient is zero on every parameter of the
    MLP: when the predictions equal the labels (and there is at least one
    label entry, the mean of an empty array being NaN), each kernel and bias
    entry of the gradients of the step is zero. *)
Theorem grads_vanish_at_perfect_fit (mdl : MLP) (st : TrainState) (x y : matrix Qc) :
  apply_fn st = apply mdl ->
  concat y <> [] ->
  MLP.__call__ mdl (params st) x = y ->
  zero_params (step_grads st x y).
Proof.
  intros Hf _ Hfit.
  assert (Hz : zero_matrix (residuals st x y)).
  { unfold residuals. rewrite Hf. unfold apply. rewrite Hfit. apply subtract_self. }
  unfold step_grads, jax.value_and_grad. cbn [snd].
  apply params_grad_zero. intros pd Hpd.
  unfold loss_fn, jnp.mean, jnp.mean1. cbn [divn Dual_Scalar tangent].
  rewrite tangent_sum.
  assert (Z : Forall (eq 0%Qc)
                (map tangent
                   (concat (jnp.square
                      (jnp.subtract (apply_fn st Dual _ pd (lift_matrix x))
                                    (lift_matrix y)))))).
  { apply tangent_squares_zero. rewrite primal_subtract.
    rewrite Hf. unfold apply. rewrite primal_call, Hpd, !primal_lift_matrix.
    unfold residuals in Hz. rewrite Hf in Hz. exact Hz. }
  apply Qc_sum_zero in Z.
  - rewrite Z. apply Qc_div_0.
  - eapply Forall_impl; [|exact Z]. intros v <-. apply Qcle_refl.
Qed.

Lemma grads_vanish_at_perfect_fit_witness :
  zero_params (step_grads ex_state [[qn 1; qn 0]] [repeat (qn 1) 10]).
Proof.
  apply (@grads_vanish_at_perfect_fit ex_model ex_state [[qn 1; qn 0]] [repeat (qn 1) 10]).
  - reflexivity.
  - discriminate.
  - apply matrix_values_eq. vm_compute. reflexivity.
Defined.

(* ================================================================== *)
(** * The order of the samples *)
(* ================================================================== *)









(* ================================================================== *)
(** * When the notebook runs to the end *)
(* ================================================================== *)




(* ================================================================== *)
(** * A pmapped step without the cross-device mean *)
(* ================================================================== *)


